(** * A shallow embedding of [remove_java_comments.py]

    The scanner [JavaCommentRemover.remove_comments] is embedded as the
    source writes it: an index [i] into the input, a list [result] of the
    pieces appended so far, the boolean flags of the instance, and a
    [while i < length] loop.  Indexing [java_content[k]] is fallible
    ([IndexError]), slicing is not, as in Python.

    Characters are Unicode code points ([N]); a Python [str] is a list of
    them.  The two builtins whose result depends on the Unicode tables,
    [str.isspace] and [str.lower], are parameters of the development. *)

From Stdlib Require Import Ascii String.
From Stdlib Require Import List NArith ZArith Bool Arith Lia.
Open Scope string_scope.
Open Scope list_scope.
Open Scope nat_scope.
Import ListNotations.

(** ** Characters and strings *)

Definition char := N.
Definition str := list char.

Definition chr (a : ascii) : char := N_of_ascii a.
Definition lit (s : string) : str := map chr (list_ascii_of_string s).

Definition backslash : char := 92%N.
Definition dquote : char := 34%N.
Definition squote : char := 39%N.
Definition newline : char := 10%N.
Definition star : char := 42%N.
Definition slash : char := 47%N.

Definition char_eqb (a b : char) : bool := N.eqb a b.

Fixpoint str_eqb (a b : str) : bool :=
  match a, b with
  | [], [] => true
  | x :: a', y :: b' => char_eqb x y && str_eqb a' b'
  | _, _ => false
  end.

(** [s[a:b]] for [0 <= a <= b]: never raises, truncates at the end. *)
Definition slice (s : str) (a b : nat) : str := firstn (b - a) (skipn a s).

(** [''.join(pieces)] *)
Definition join (pieces : list str) : str := List.concat pieces.

Fixpoint startswith (p s : str) : bool :=
  match p, s with
  | [], _ => true
  | a :: p', b :: s' => char_eqb a b && startswith p' s'
  | _ :: _, [] => false
  end.

(** [needle in hay] on strings *)
Fixpoint contains (needle hay : str) : bool :=
  startswith needle hay ||
  match hay with
  | [] => false
  | _ :: t => contains needle t
  end.

Definition url_indicators : list str :=
  [lit "http:"; lit "https:"; lit "ftp:"; lit "file:"].

(** The number of newline characters of a string. *)
Definition count_newlines (s : str) : nat :=
  List.length (filter (fun c => char_eqb c newline) s).

(** The character after the current one, if any, is [x]. *)
Definition next_is (tl : str) (x : char) : bool :=
  match tl with
  | c1 :: _ => char_eqb c1 x
  | [] => false
  end.

(** The inside of a literal closed by [delim]: characters other than
    [delim] and the backslash, and backslashes each followed by one more
    character. *)
Fixpoint literal_body (delim : char) (b : str) : bool :=
  match b with
  | [] => true
  | c :: b' =>
      if char_eqb c backslash then
        match b' with
        | [] => false
        | _ :: b'' => literal_body delim b''
        end
      else negb (char_eqb c delim) && literal_body delim b'
  end.

(** The last [n] elements of a list: [l[-n:]]. *)
Definition last_n {A : Type} (n : nat) (l : list A) : list A :=
  skipn (List.length l - n) l.

(** No slash of the string is followed by a slash or a star. *)
Fixpoint opener_free (x : str) : bool :=
  match x with
  | [] => true
  | c :: tl =>
      negb (char_eqb c slash && (next_is tl slash || next_is tl star))
      && opener_free tl
  end.

(** [Subseq a b]: [a] is [b] with some characters left out. *)
Inductive Subseq : str -> str -> Prop :=
| Subseq_nil : Subseq [] []
| Subseq_skip a b c : Subseq a b -> Subseq a (c :: b)
| Subseq_take a b c : Subseq a b -> Subseq (c :: a) (c :: b).

(** [KeepsLines a b]: [a] is [b] with some characters that are no
    newline left out. *)
Inductive KeepsLines : str -> str -> Prop :=
| KeepsLines_nil : KeepsLines [] []
| KeepsLines_drop a b c :
    char_eqb c newline = false -> KeepsLines a b -> KeepsLines a (c :: b)
| KeepsLines_keep a b c : KeepsLines a b -> KeepsLines (c :: a) (c :: b).

(** [s.split('\n')]: the lines of a string. *)
Fixpoint split_lines (s : str) : list str :=
  match s with
  | [] => [[]]
  | c :: s' =>
      if char_eqb c newline then [] :: split_lines s'
      else match split_lines s' with
           | l :: ls => (c :: l) :: ls
           | [] => [[c]]
           end
  end.

(** Plain code: no slash, no double quote, no single quote. *)
Definition plain_code (p : str) : bool :=
  forallb (fun c => negb (char_eqb c slash || char_eqb c dquote
                          || char_eqb c squote)) p.

(** The string holds no newline. *)
Definition no_newline (b : str) : bool :=
  forallb (fun c => negb (char_eqb c newline)) b.

(** The inside of a text block that the three closing quotes follow:
    backslashes are each followed by one more character of the body, and
    no quote of the body has two quotes after it. *)
Fixpoint text_block_body (b : str) : bool :=
  match b with
  | [] => true
  | c :: b' =>
      if char_eqb c backslash then
        match b' with
        | [] => false
        | _ :: b'' => text_block_body b''
        end
      else if char_eqb c dquote then
        negb (str_eqb (firstn 2 (b' ++ [dquote; dquote])) [dquote; dquote])
        && text_block_body b'
      else text_block_body b'
  end.

(** ** Exceptions *)

Inductive exn := IndexError | OutOfFuel.

Inductive res (A : Type) : Type :=
| Ok (a : A)
| Raise (e : exn).
Arguments Ok {A} a.
Arguments Raise {A} e.

Definition bind {A B} (m : res A) (k : A -> res B) : res B :=
  match m with
  | Ok a => k a
  | Raise e => Raise e
  end.

Notation "x <- m ;; k" := (bind m (fun x => k))
  (at level 61, m at next level, right associativity).

(** [s[k]] for [0 <= k] *)
Definition getitem (s : str) (k : nat) : res char :=
  match nth_error s k with
  | Some c => Ok c
  | None => Raise IndexError
  end.

(** ** The instance *)

Record JavaCommentRemover := mkRemover {
  in_string : bool;
  in_char : bool;
  in_single_line_comment : bool;
  in_multi_line_comment : bool;
  string_delimiter : option char;
  in_text_block : bool;
  text_block_quotes : Z
}.

(** [__init__] *)
Definition init : JavaCommentRemover :=
  {| in_string := false; in_char := false;
     in_single_line_comment := false; in_multi_line_comment := false;
     string_delimiter := None; in_text_block := false;
     text_block_quotes := 0 |}.

Definition set_in_string (s : JavaCommentRemover) (b : bool) (d : option char) :=
  {| in_string := b; in_char := in_char s;
     in_single_line_comment := in_single_line_comment s;
     in_multi_line_comment := in_multi_line_comment s;
     string_delimiter := d; in_text_block := in_text_block s;
     text_block_quotes := text_block_quotes s |}.

Definition set_in_char (s : JavaCommentRemover) (b : bool) :=
  {| in_string := in_string s; in_char := b;
     in_single_line_comment := in_single_line_comment s;
     in_multi_line_comment := in_multi_line_comment s;
     string_delimiter := string_delimiter s; in_text_block := in_text_block s;
     text_block_quotes := text_block_quotes s |}.

Definition set_in_single_line_comment (s : JavaCommentRemover) (b : bool) :=
  {| in_string := in_string s; in_char := in_char s;
     in_single_line_comment := b;
     in_multi_line_comment := in_multi_line_comment s;
     string_delimiter := string_delimiter s; in_text_block := in_text_block s;
     text_block_quotes := text_block_quotes s |}.

Definition set_in_multi_line_comment (s : JavaCommentRemover) (b : bool) :=
  {| in_string := in_string s; in_char := in_char s;
     in_single_line_comment := in_single_line_comment s;
     in_multi_line_comment := b;
     string_delimiter := string_delimiter s; in_text_block := in_text_block s;
     text_block_quotes := text_block_quotes s |}.

Definition set_in_text_block (s : JavaCommentRemover) (b : bool) :=
  {| in_string := in_string s; in_char := in_char s;
     in_single_line_comment := in_single_line_comment s;
     in_multi_line_comment := in_multi_line_comment s;
     string_delimiter := string_delimiter s; in_text_block := b;
     text_block_quotes := text_block_quotes s |}.

(** [char == self.string_delimiter]; a character never equals [None]. *)
Definition is_delimiter (c : char) (d : option char) : bool :=
  match d with
  | Some x => char_eqb c x
  | None => false
  end.

(** The variables of the loop of [remove_comments]. *)
Record Loop := mkLoop {
  self : JavaCommentRemover;
  result : list str;
  i : nat
}.

(** The flags as a fresh instance and the scanner keep them: at most one
    of the five is set, [string_delimiter] is the double quote exactly
    while [in_string] is set, and [text_block_quotes] is 0. *)
Definition well_formed (s : JavaCommentRemover) : bool :=
  (Nat.b2n (in_string s) + Nat.b2n (in_char s)
   + Nat.b2n (in_single_line_comment s) + Nat.b2n (in_multi_line_comment s)
   + Nat.b2n (in_text_block s) <=? 1)
  && match string_delimiter s with
     | Some d => in_string s && char_eqb d dquote
     | None => negb (in_string s)
     end
  && (text_block_quotes s =? 0)%Z.

Section Scanner.

(** [c.isspace()] for a character [c], and [s.lower()]. *)
Variable isspace : char -> bool.
Variable lower : str -> str.

(** Lines 116-119, on what follows a double quote: two more double quotes
    and then a whitespace character make the quote the start of a text
    block. *)
Definition opens_text_block (tl : str) : bool :=
  str_eqb (firstn 2 tl) [dquote; dquote]
  && match skipn 2 tl with
     | c3 :: _ => isspace c3 || char_eqb c3 newline
     | [] => false
     end.

(** Lines 134-137: the look-back over the last ten entries of [result]. *)
Definition is_likely_url (result : list str) : bool :=
  let preceding_context :=
    if 10 <=? List.length result
    then lower (join (skipn (List.length result - 10) result))
    else lower (join result) in
  existsb (fun indicator => contains indicator preceding_context) url_indicators.

(** Lines 150-167: start of a string or character literal, or a regular
    character. *)
Definition open_literal_or_copy (s : JavaCommentRemover) (result : list str)
    (i : nat) (c : char) : Loop :=
  if char_eqb c dquote then
    {| self := set_in_string s true (Some c); result := result ++ [[c]]; i := i + 1 |}
  else if char_eqb c squote then
    {| self := set_in_char s true; result := result ++ [[c]]; i := i + 1 |}
  else
    {| self := s; result := result ++ [[c]]; i := i + 1 |}.

(** Lines 125-167: start of a comment; falls through to the literal rules
    when no comment starts. *)
Definition open_comment_or_below (java_content : str) (s : JavaCommentRemover)
    (result : list str) (i : nat) (c : char) : res Loop :=
  let length := List.length java_content in
  if char_eqb c slash then
    if i + 1 <? length then
      next_char <- getitem java_content (i + 1) ;;
      if char_eqb next_char slash then
        if negb (is_likely_url result) then
          Ok {| self := set_in_single_line_comment s true; result := result; i := i + 2 |}
        else Ok (open_literal_or_copy s result i c)
      else if char_eqb next_char star then
        Ok {| self := set_in_multi_line_comment s true; result := result; i := i + 2 |}
      else Ok (open_literal_or_copy s result i c)
    else Ok (open_literal_or_copy s result i c)
  else Ok (open_literal_or_copy s result i c).

(** One iteration of the [while] loop, lines 42-167. *)
Definition body (java_content : str) (st : Loop) : res Loop :=
  let length := List.length java_content in
  let s := self st in
  let result := result st in
  let i := i st in
  c <- getitem java_content i ;;
  (* lines 44-54 *)
  if (in_string s || in_char s || in_text_block s) && char_eqb c backslash then
    if i + 1 <? length then
      c1 <- getitem java_content (i + 1) ;;
      Ok {| self := s; result := (result ++ [[c]]) ++ [[c1]]; i := i + 2 |}
    else
      Ok {| self := s; result := result ++ [[c]]; i := i + 1 |}
  (* lines 56-66 *)
  else if in_text_block s then
    let result := result ++ [[c]] in
    if char_eqb c dquote && (i + 2 <? length)
       && str_eqb (slice java_content (i + 1) (i + 3)) [dquote; dquote] then
      Ok {| self := set_in_text_block s false;
            result := result ++ [[dquote; dquote]]; i := i + 3 |}
    else
      Ok {| self := s; result := result; i := i + 1 |}
  (* lines 68-74 *)
  else if in_string s && is_delimiter c (string_delimiter s) then
    Ok {| self := set_in_string s false None; result := result ++ [[c]]; i := i + 1 |}
  (* lines 76-81 *)
  else if in_char s && char_eqb c squote then
    Ok {| self := set_in_char s false; result := result ++ [[c]]; i := i + 1 |}
  (* lines 83-87 *)
  else if in_string s || in_char s then
    Ok {| self := s; result := result ++ [[c]]; i := i + 1 |}
  (* lines 89-94 *)
  else if in_single_line_comment s && char_eqb c newline then
    Ok {| self := set_in_single_line_comment s false;
          result := result ++ [[c]]; i := i + 1 |}
  (* lines 96-108 *)
  else if in_multi_line_comment s then
    closes <- (if char_eqb c star && (i + 1 <? length)
               then c1 <- getitem java_content (i + 1) ;; Ok (char_eqb c1 slash)
               else Ok false) ;;
    if closes then
      Ok {| self := set_in_multi_line_comment s false; result := result; i := i + 2 |}
    else
      Ok {| self := s;
            result := if char_eqb c newline then result ++ [[c]] else result;
            i := i + 1 |}
  (* lines 110-113 *)
  else if in_single_line_comment s then
    Ok {| self := s; result := result; i := i + 1 |}
  else
    (* lines 115-123 *)
    opens <- (if char_eqb c dquote && (i + 2 <? length)
                 && str_eqb (slice java_content i (i + 3)) [dquote; dquote; dquote]
              then
                if i + 3 <? length
                then c3 <- getitem java_content (i + 3) ;;
                     Ok (isspace c3 || char_eqb c3 newline)
                else Ok false
              else Ok false) ;;
    if opens then
      Ok {| self := set_in_text_block s true;
            result := result ++ [[dquote; dquote; dquote]]; i := i + 3 |}
    else
      open_comment_or_below java_content s result i c.

(** The same iteration read off the unscanned suffix [java_content[i:]]:
    the flags after it, the entries it appends to [result], and how far it
    advances [i].  [body_step] below shows that [body] computes exactly
    this, so the facts about one iteration are proved on [step]. *)
Definition step (s : JavaCommentRemover) (result : list str) (rest : str)
  : JavaCommentRemover * list str * nat :=
  match rest with
  | [] => (s, [], 0)
  | c :: tl =>
    if (in_string s || in_char s || in_text_block s) && char_eqb c backslash then
      match tl with
      | c1 :: _ => (s, [[c]; [c1]], 2)
      | [] => (s, [[c]], 1)
      end
    else if in_text_block s then
      if char_eqb c dquote && str_eqb (firstn 2 tl) [dquote; dquote]
      then (set_in_text_block s false, [[c]; [dquote; dquote]], 3)
      else (s, [[c]], 1)
    else if in_string s && is_delimiter c (string_delimiter s) then
      (set_in_string s false None, [[c]], 1)
    else if in_char s && char_eqb c squote then
      (set_in_char s false, [[c]], 1)
    else if in_string s || in_char s then
      (s, [[c]], 1)
    else if in_single_line_comment s && char_eqb c newline then
      (set_in_single_line_comment s false, [[c]], 1)
    else if in_multi_line_comment s then
      if char_eqb c star && next_is tl slash
      then (set_in_multi_line_comment s false, [], 2)
      else (s, if char_eqb c newline then [[c]] else [], 1)
    else if in_single_line_comment s then
      (s, [], 1)
    else if char_eqb c dquote && str_eqb (firstn 2 tl) [dquote; dquote]
            && match skipn 2 tl with
               | c3 :: _ => isspace c3 || char_eqb c3 newline
               | [] => false
               end then
      (set_in_text_block s true, [[dquote; dquote; dquote]], 3)
    else if char_eqb c slash && next_is tl slash
            && negb (is_likely_url result) then
      (set_in_single_line_comment s true, [], 2)
    else if char_eqb c slash && next_is tl star then
      (set_in_multi_line_comment s true, [], 2)
    else if char_eqb c dquote then
      (set_in_string s true (Some c), [[c]], 1)
    else if char_eqb c squote then
      (set_in_char s true, [[c]], 1)
    else
      (s, [[c]], 1)
  end.

Definition advance (st : Loop) (rest : str) : Loop :=
  let '(s', pieces, n) := step (self st) (result st) rest in
  {| self := s'; result := result st ++ pieces; i := i st + n |}.

(** [while i < length: ...].  Every iteration advances [i], so
    [length - i] iterations are enough; the fuel makes that explicit. *)
Fixpoint while (fuel : nat) (java_content : str) (st : Loop) : res Loop :=
  if i st <? List.length java_content then
    match fuel with
    | 0 => Raise OutOfFuel
    | S fuel' => st' <- body java_content st ;; while fuel' java_content st'
    end
  else Ok st.

(** [remove_comments]: the instance after the call and the returned string.
    The flags are those of the instance on entry; nothing resets them here. *)
Definition remove_comments (s : JavaCommentRemover) (java_content : str)
  : res (JavaCommentRemover * str) :=
  st <- while (List.length java_content) java_content
          {| self := s; result := []; i := 0 |} ;;
  Ok (self st, join (result st)).

(** Neither comment flag is set. *)
Definition no_comment_flags (s : JavaCommentRemover) : bool :=
  negb (in_single_line_comment s || in_multi_line_comment s).

(** No flag is set: the scanner is in plain code. *)
Definition code_mode (s : JavaCommentRemover) : bool :=
  negb (in_string s || in_char s || in_single_line_comment s
        || in_multi_line_comment s || in_text_block s).

(** The loop variables on entry to [remove_comments]. *)
Definition start (s : JavaCommentRemover) : Loop :=
  {| self := s; result := []; i := 0 |}.

(** [reaches java_content st st']: the loop, in state [st] at the top of an
    iteration, is in state [st'] at the top of a later one. *)
Inductive reaches (java_content : str) : Loop -> Loop -> Prop :=
| reaches_refl st : reaches java_content st st
| reaches_step st st' st'' :
    i st < List.length java_content ->
    body java_content st = Ok st' ->
    reaches java_content st' st'' ->
    reaches java_content st st''.

(** The loop states at the top of each iteration, in order. *)
Fixpoint states (fuel : nat) (java_content : str) (st : Loop) : list Loop :=
  st ::
  (if i st <? List.length java_content then
     match fuel with
     | 0 => []
     | S fuel' =>
         match body java_content st with
         | Ok st' => states fuel' java_content st'
         | Raise _ => []
         end
     end
   else []).

(** The scanner, started on a fresh instance, finds no comment in [x]: no
    comment flag is ever set during the scan. *)
Definition comment_free (x : str) : bool :=
  forallb (fun st => no_comment_flags (self st))
          (states (List.length x) x (start init)).

(** Lines 188-195 of [process_file]. *)
Definition reset_state (s : JavaCommentRemover) : JavaCommentRemover :=
  {| in_string := false; in_char := false;
     in_single_line_comment := false; in_multi_line_comment := false;
     string_delimiter := None; in_text_block := false;
     text_block_quotes := 0 |}.

(** [process_file] without its file reads and writes: [original_content]
    is what was read, the string is [cleaned_content]. *)
Definition process_file (s : JavaCommentRemover) (original_content : str)
  : res (JavaCommentRemover * str) :=
  remove_comments (reset_state s) original_content.

End Scanner.

(** Python's tables on the code points below 256, enough to run the
    scanner on ASCII and Latin-1 input.  Above U+00FF they are not
    Python's: [isspace_latin1] is false there and [lower_latin1] is the
    identity.  Only [run] uses them, on such input; the general theorems
    are stated for every [isspace] and [lower]. *)
Definition isspace_latin1 (c : char) : bool :=
  ((9 <=? c) && (c <=? 13) || (28 <=? c) && (c <=? 32)
   || (c =? 133) || (c =? 160))%N.

Definition lower_char_latin1 (c : char) : char :=
  (if (65 <=? c) && (c <=? 90) then c + 32
   else if (192 <=? c) && (c <=? 222) && negb (c =? 215) then c + 32
   else c)%N.

Definition lower_latin1 (s : str) : str := map lower_char_latin1 s.

Definition run (x : str) : res (JavaCommentRemover * str) :=
  remove_comments isspace_latin1 lower_latin1 init x.


(** ** One iteration, read off the suffix *)

Lemma getitem_at (l : str) (i k : nat) :
  getitem l (i + k) = getitem (skipn i l) k.
Proof. unfold getitem. now rewrite nth_error_skipn. Qed.

Lemma getitem_at0 (l : str) (i : nat) :
  getitem l i = getitem (skipn i l) 0.
Proof. rewrite <- getitem_at. now rewrite Nat.add_0_r. Qed.

Lemma ltb_at (l : str) (i k : nat) :
  i <= List.length l ->
  (i + k <? List.length l) = (k <? List.length (skipn i l)).
Proof.
  intros H. rewrite length_skipn.
  destruct (Nat.ltb_spec (i + k) (List.length l)),
           (Nat.ltb_spec k (List.length l - i)); auto; lia.
Qed.

Lemma slice_at (l : str) (i a b : nat) :
  slice l (i + a) (i + b) = slice (skipn i l) a b.
Proof.
  unfold slice. rewrite skipn_skipn. f_equal; [lia | f_equal; lia].
Qed.

Lemma slice_at0 (l : str) (i b : nat) :
  slice l i (i + b) = slice (skipn i l) 0 b.
Proof. rewrite <- slice_at. now rewrite Nat.add_0_r. Qed.

(** Case analysis on the tests of one iteration, leftmost test first. *)
Ltac destruct_test b :=
  lazymatch b with
  | andb ?x _ => destruct_test x
  | orb ?x _ => destruct_test x
  | negb ?x => destruct_test x
  | _ => destruct b eqn:?
  end.

Ltac step_cases :=
  repeat (cbn -[char_eqb Nat.add is_likely_url];
          match goal with
          | |- context [if ?b then _ else _] => destruct_test b
          end);
  cbn -[char_eqb Nat.add is_likely_url].

Ltac chars_clash :=
  exfalso;
  repeat match goal with
         | H : char_eqb _ _ = true |- _ => apply N.eqb_eq in H
         end;
  unfold dquote, squote, slash, star, newline, backslash in *; congruence.

Lemma firstn_plus (l : str) (n m : nat) :
  firstn (n + m) l = firstn n l ++ firstn m (skipn n l).
Proof.
  revert l. induction n as [|n IH]; intros l; [reflexivity|].
  destruct l as [|a l]; simpl.
  - now rewrite firstn_nil.
  - now rewrite IH.
Qed.

Lemma join_app (a b : list str) : join (a ++ b) = join a ++ join b.
Proof. apply concat_app. Qed.

Lemma count_newlines_app (a b : str) :
  count_newlines (a ++ b) = count_newlines a + count_newlines b.
Proof. unfold count_newlines. now rewrite filter_app, length_app. Qed.

Section ScannerFacts.

Variable isspace : char -> bool.
Variable lower : str -> str.

Local Abbreviation body := (body isspace lower).
Local Abbreviation step := (step isspace lower).
Local Abbreviation advance := (advance isspace lower).
Local Abbreviation while := (while isspace lower).
Local Abbreviation remove_comments := (remove_comments isspace lower).
Local Abbreviation is_likely_url := (is_likely_url lower).

Lemma body_step (java_content : str) (st : Loop) :
  i st < List.length java_content ->
  body java_content st = Ok (advance st (skipn (i st) java_content)).
Proof.
  intros Hi. destruct st as [s r n]. simpl in Hi.
  unfold body, open_comment_or_below, advance. simpl self; simpl result; simpl i.
  rewrite !(getitem_at java_content n), !(getitem_at0 java_content n).
  rewrite !(ltb_at java_content n) by lia.
  rewrite !(slice_at java_content n), !(slice_at0 java_content n).
  assert (Hne : skipn n java_content <> []).
  { intros E. apply (f_equal (@List.length _)) in E.
    rewrite length_skipn in E. simpl in E. lia. }
  generalize dependent (skipn n java_content). clear Hi.
  intros rest Hne.
  destruct rest as [|c tl]; [congruence|]. clear Hne.
  unfold step, getitem, slice, open_literal_or_copy, next_is.
  destruct s as [fs fc fl fm d ft q].
  destruct fs, fc, fl, fm, ft, tl as [|c1 [|c2 [|c3 tl]]];
    cbn -[char_eqb is_likely_url set_in_string set_in_char set_in_text_block
          set_in_single_line_comment set_in_multi_line_comment Nat.add];
    repeat match goal with
           | |- context [char_eqb ?a ?b] => destruct (char_eqb a b) eqn:?
           | |- context [is_delimiter ?a ?b] => destruct (is_delimiter a b) eqn:?
           | |- context [isspace ?a] => destruct (isspace a) eqn:?
           | |- context [is_likely_url ?a] => destruct (is_likely_url a) eqn:?
           | _ => progress cbn -[char_eqb is_likely_url set_in_string set_in_char
                     set_in_text_block set_in_single_line_comment
                     set_in_multi_line_comment Nat.add]
           end;
    rewrite <- ?app_assoc, ?app_nil_r; try reflexivity.
  all: exfalso;
    repeat match goal with
           | H : char_eqb _ _ = true |- _ => apply N.eqb_eq in H
           end;
    unfold dquote, squote, slash, star, newline, backslash in *; congruence.
Qed.

(** Every iteration consumes at least one character and never more than
    are left. *)
Lemma step_consumes (s : JavaCommentRemover) (r : list str) (rest : str) :
  rest <> [] ->
  1 <= snd (step s r rest) <= List.length rest.
Proof.
  intros Hne. destruct rest as [|c tl]; [congruence|].
  unfold step, next_is.
  destruct tl as [|c1 [|c2 [|c3 tl]]]; step_cases; lia.
Qed.

Lemma skipn_nonempty (l : str) (n : nat) :
  n < List.length l -> skipn n l <> [].
Proof.
  intros Hn E. apply (f_equal (@List.length _)) in E.
  rewrite length_skipn in E. simpl in E. lia.
Qed.

Lemma advance_i (java_content : str) (st : Loop) :
  i st < List.length java_content ->
  i st < i (advance st (skipn (i st) java_content)) <= List.length java_content.
Proof.
  intros Hi.
  pose proof (step_consumes (self st) (result st) _ (skipn_nonempty _ _ Hi)) as H.
  rewrite length_skipn in H. unfold advance.
  destruct (step (self st) (result st) (skipn (i st) java_content)) as [[s' p] n].
  simpl in *. lia.
Qed.

(** ** The loop *)

(** The rule for the loop: an invariant kept by every iteration holds when
    the loop ends, and it does end, on the whole input. *)
Lemma while_inv (java_content : str) (P : Loop -> Prop) :
  (forall st, P st -> i st < List.length java_content ->
              P (advance st (skipn (i st) java_content))) ->
  forall fuel st,
    P st -> i st <= List.length java_content ->
    List.length java_content - i st <= fuel ->
    exists st', while fuel java_content st = Ok st' /\ P st'
                /\ i st' = List.length java_content.
Proof.
  intros Hstep. induction fuel as [|fuel IH]; intros st HP Hle Hfuel.
  - exists st. simpl. destruct (Nat.ltb_spec (i st) (List.length java_content)).
    + lia.
    + repeat split; auto; lia.
  - simpl. destruct (Nat.ltb_spec (i st) (List.length java_content)) as [Hlt|Hge].
    + rewrite (body_step _ _ Hlt). simpl.
      pose proof (advance_i _ _ Hlt) as Hadv.
      apply IH; [now apply Hstep | lia | lia].
    + exists st. repeat split; auto; lia.
Qed.

Lemma while_iter (java_content : str) (fuel : nat) (st st' : Loop) :
  i st < List.length java_content ->
  body java_content st = Ok st' ->
  while (S fuel) java_content st = while fuel java_content st'.
Proof.
  intros Hlt Hb. simpl. now rewrite (proj2 (Nat.ltb_lt _ _) Hlt), Hb.
Qed.

Lemma while_done (java_content : str) (fuel : nat) (st : Loop) :
  List.length java_content <= i st ->
  while fuel java_content st = Ok st.
Proof.
  intros Hge. destruct fuel; simpl;
    now rewrite (proj2 (Nat.ltb_ge _ _) Hge).
Qed.

(** More fuel than [length - i] changes nothing. *)
Lemma while_fuel (java_content : str) :
  forall f1 f2 st,
    List.length java_content - i st <= f1 ->
    List.length java_content - i st <= f2 ->
    while f1 java_content st = while f2 java_content st.
Proof.
  induction f1 as [|f1 IH]; intros f2 st H1 H2.
  - destruct f2; simpl;
      destruct (Nat.ltb_spec (i st) (List.length java_content)); auto; lia.
  - destruct f2; simpl;
      destruct (Nat.ltb_spec (i st) (List.length java_content)) as [Hlt|Hge];
      auto; try lia.
    rewrite (body_step _ _ Hlt). simpl.
    pose proof (advance_i _ _ Hlt). apply IH; lia.
Qed.

Lemma reaches_i (java_content : str) (st st' : Loop) :
  reaches isspace lower java_content st st' -> i st <= i st'.
Proof.
  induction 1 as [|st st1 st2 Hlt Hb _ IH]; [lia|].
  rewrite (body_step _ _ Hlt) in Hb. injection Hb as <-.
  pose proof (advance_i _ _ Hlt). lia.
Qed.

Lemma reaches_trans (java_content : str) (a b c : Loop) :
  reaches isspace lower java_content a b ->
  reaches isspace lower java_content b c ->
  reaches isspace lower java_content a c.
Proof.
  induction 1; intros; eauto using reaches.
Qed.

Lemma reaches_advance (java_content : str) (st : Loop) :
  i st < List.length java_content ->
  reaches isspace lower java_content st (advance st (skipn (i st) java_content)).
Proof.
  intros Hlt. eapply reaches_step; [exact Hlt | now apply body_step | constructor].
Qed.

(** The loop run from a state is the loop run from any state it reaches. *)
Lemma while_reaches (java_content : str) (st st' : Loop) :
  reaches isspace lower java_content st st' ->
  forall fuel, List.length java_content - i st <= fuel ->
    while fuel java_content st = while fuel java_content st'.
Proof.
  induction 1 as [|st st1 st2 Hlt Hb Hr IH]; intros fuel Hfuel; [reflexivity|].
  destruct fuel as [|fuel]; [lia|].
  pose proof Hb as Hb'. rewrite (body_step _ _ Hlt) in Hb'. injection Hb' as <-.
  pose proof (advance_i _ _ Hlt) as Hadv.
  pose proof (reaches_i _ _ _ Hr) as Hi.
  rewrite (while_fuel java_content (S fuel) fuel st2) by lia.
  simpl. rewrite (proj2 (Nat.ltb_lt _ _) Hlt), Hb. simpl.
  apply IH; lia.
Qed.

(** ** Totality *)

Lemma remove_comments_returns (s : JavaCommentRemover) (java_content : str) :
  exists st', while (List.length java_content) java_content (start s) = Ok st'
              /\ i st' = List.length java_content
              /\ remove_comments s java_content
                 = Ok (self st', join (result st')).
Proof.
  destruct (while_inv java_content (fun _ => True) (fun _ _ _ => I)
              (List.length java_content) (start s) I) as (st' & Hw & _ & Hi);
    [simpl; lia | simpl; lia |].
  exists st'. unfold remove_comments. fold (start s). rewrite Hw. auto.
Qed.

(** C3: [remove_comments] is total.  From any flags and on any input,
    the empty one included, no iteration raises (every [java_content[k]]
    it evaluates is in range), the loop stops with [i] at the end of the
    input, in whatever mode it is then, and a string is returned. *)
Theorem remove_comments_total (s : JavaCommentRemover) (java_content : str) :
  (forall st, i st < List.length java_content ->
              exists st', body java_content st = Ok st') /\
  (exists st', while (List.length java_content) java_content (start s) = Ok st'
               /\ i st' = List.length java_content
               /\ remove_comments s java_content
                  = Ok (self st', join (result st'))) /\
  remove_comments s [] = Ok (s, []).
Proof.
  split; [|split].
  - intros st Hlt. eexists. now apply body_step.
  - apply remove_comments_returns.
  - reflexivity.
Qed.

(** ** Newlines *)

Lemma step_newlines (s : JavaCommentRemover) (r : list str) (rest : str) :
  count_newlines (join (snd (fst (step s r rest))))
  = count_newlines (firstn (snd (step s r rest)) rest).
Proof.
  destruct rest as [|c tl]; [reflexivity|].
  unfold step, next_is, count_newlines.
  destruct tl as [|c1 [|c2 [|c3 tl]]]; step_cases;
    try reflexivity; try congruence; chars_clash.
Qed.

Lemma advance_newlines (java_content : str) (st : Loop) :
  count_newlines (join (result st))
    = count_newlines (firstn (i st) java_content) ->
  count_newlines (join (result (advance st (skipn (i st) java_content))))
    = count_newlines
        (firstn (i (advance st (skipn (i st) java_content))) java_content).
Proof.
  intros H. unfold advance.
  pose proof (step_newlines (self st) (result st) (skipn (i st) java_content)) as Hs.
  destruct (step (self st) (result st) (skipn (i st) java_content)) as [[s' p] n].
  simpl in *.
  now rewrite join_app, firstn_plus, !count_newlines_app, H, Hs.
Qed.

(** C1: whatever the flags on entry, the string returned by
    [remove_comments] has exactly as many newline characters as its input:
    every newline is appended to [result], those inside line and block
    comments included, and none is added. *)
Theorem remove_comments_keeps_newlines (s : JavaCommentRemover) (x : str) :
  exists s' out,
    remove_comments s x = Ok (s', out) /\
    count_newlines out = count_newlines x.
Proof.
  destruct (while_inv x
              (fun st => count_newlines (join (result st))
                         = count_newlines (firstn (i st) x))
              (fun st H _ => advance_newlines x st H)
              (List.length x) (start s)) as (st' & Hw & Hc & Hi);
    [reflexivity | simpl; lia | simpl; lia |].
  exists (self st'), (join (result st')). split.
  - unfold remove_comments. fold (start s). now rewrite Hw.
  - now rewrite Hc, Hi, firstn_all.
Qed.

(** ** Escapes in literals *)

Lemma getitem_Some (l : str) (k : nat) (c : char) :
  nth_error l k = Some c -> getitem l k = Ok c.
Proof. unfold getitem. now intros ->. Qed.

Lemma nth_error_lt (l : str) (k : nat) (c : char) :
  nth_error l k = Some c -> (k <? List.length l) = true.
Proof.
  intros H. apply Nat.ltb_lt. apply nth_error_Some. congruence.
Qed.

Lemma escape_pair (x : str) (st : Loop) (c1 : char) :
  in_string (self st) || in_char (self st) || in_text_block (self st) = true ->
  nth_error x (i st) = Some backslash ->
  nth_error x (i st + 1) = Some c1 ->
  body x st = Ok {| self := self st;
                    result := result st ++ [[backslash]; [c1]];
                    i := i st + 2 |}.
Proof.
  intros Hmode H0 H1. unfold body.
  rewrite (getitem_Some _ _ _ H0). cbn [bind].
  rewrite Hmode, (nth_error_lt _ _ _ H1), (getitem_Some _ _ _ H1).
  cbn. now rewrite <- app_assoc.
Qed.

Lemma escape_alone (x : str) (st : Loop) :
  in_string (self st) || in_char (self st) || in_text_block (self st) = true ->
  nth_error x (i st) = Some backslash ->
  i st + 1 = List.length x ->
  body x st = Ok {| self := self st;
                    result := result st ++ [[backslash]];
                    i := i st + 1 |}.
Proof.
  intros Hmode H0 Hlast. unfold body.
  rewrite (getitem_Some _ _ _ H0). cbn [bind].
  rewrite Hmode, Hlast, Nat.ltb_irrefl. reflexivity.
Qed.

(** C5: in a string literal, a character literal or a text block, a
    backslash that has a character after it is appended with that
    character, [i] moves past both and the flags stay as they are, whatever
    the second character is; so in the Java line that assigns to
    [String s] the literal made of [a], an escaped double quote and
    [b // c], the escaped quote does not close the string, the two slashes
    stay in it, and the line is returned unchanged. *)
Theorem escape_copies_pair :
  (forall (x : str) (st : Loop) (c1 : char),
      in_string (self st) || in_char (self st) || in_text_block (self st) = true ->
      nth_error x (i st) = Some backslash ->
      nth_error x (i st + 1) = Some c1 ->
      body x st = Ok {| self := self st;
                        result := result st ++ [[backslash]; [c1]];
                        i := i st + 2 |}) /\
  (let x := lit "String s = " ++ [dquote] ++ lit "a " ++ [backslash; dquote]
              ++ lit " b // c" ++ [dquote] ++ lit ";" in
   remove_comments init x = Ok (init, x)).
Proof.
  split.
  - exact escape_pair.
  - vm_compute. reflexivity.
Qed.

(** C10: when the last character of the input is a backslash read in a
    string literal, a character literal or a text block, the iteration
    appends that backslash alone and [remove_comments] returns, the
    backslash being the last character of its output. *)
Theorem trailing_backslash_copied
    (s0 : JavaCommentRemover) (x : str) (st : Loop) :
  reaches isspace lower x (start s0) st ->
  in_string (self st) || in_char (self st) || in_text_block (self st) = true ->
  nth_error x (i st) = Some backslash ->
  i st + 1 = List.length x ->
  body x st = Ok {| self := self st;
                    result := result st ++ [[backslash]];
                    i := i st + 1 |} /\
  remove_comments s0 x = Ok (self st, join (result st) ++ [backslash]).
Proof.
  intros Hr Hmode H0 Hlast.
  pose proof (escape_alone x st Hmode H0 Hlast) as Hb.
  split; [exact Hb|].
  unfold remove_comments. fold (start s0).
  rewrite (while_reaches x _ _ Hr) by (simpl; lia).
  assert (Hlt : i st < List.length x) by lia.
  rewrite <- Hlast, Nat.add_1_r at 1.
  rewrite (while_iter x _ _ _ Hlt Hb).
  rewrite while_done by (simpl; lia).
  cbn [bind self result]. now rewrite join_app.
Qed.

(** ** Reuse of an instance *)

(** C4, as the code has it: the flags are reset by [process_file], just
    before it calls [remove_comments], not by [remove_comments].  Whatever
    the flags of the instance, the reset gives those of a fresh instance, so
    a file processed after another on one instance gets the output it gets
    on a fresh one. *)
Theorem process_file_resets (s0 : JavaCommentRemover) (x y : str) :
  reset_state s0 = init /\
  exists s1 out_x,
    process_file isspace lower s0 x = Ok (s1, out_x) /\
    process_file isspace lower s1 y = remove_comments init y.
Proof.
  split; [reflexivity|].
  destruct (remove_comments_returns init x) as (st' & _ & _ & Hrc).
  exists (self st'), (join (result st')). split.
  - exact Hrc.
  - reflexivity.
Qed.

(** ** Literals *)

Lemma skipn_lt (l : str) (n : nat) (c : char) (tl : str) :
  skipn n l = c :: tl -> n < List.length l.
Proof.
  intros E. apply (f_equal (@List.length _)) in E.
  rewrite length_skipn in E. simpl in E. lia.
Qed.

Lemma skipn_plus (l : str) (n k : nat) :
  skipn (n + k) l = skipn k (skipn n l).
Proof. rewrite skipn_skipn. f_equal. lia. Qed.

(** From inside a string literal the scanner copies the body and the
    closing quote, and is then out of the string with its other flags
    as they were. *)
Lemma string_literal_copied (x : str) :
  forall (n : nat) (b : str) (st : Loop) (rest : str),
    List.length b <= n ->
    in_string (self st) = true ->
    string_delimiter (self st) = Some dquote ->
    in_char (self st) = false ->
    in_text_block (self st) = false ->
    skipn (i st) x = b ++ dquote :: rest ->
    literal_body dquote b = true ->
    reaches isspace lower x st
      {| self := set_in_string (self st) false None;
         result := result st ++ map (fun c => [c]) (b ++ [dquote]);
         i := i st + List.length b + 1 |}.
Proof.
  induction n as [|n IH]; intros b st rest Hn Hs Hd Hc Ht Hx Hb.
  - destruct b; [|simpl in Hn; lia].
    simpl in Hx. eapply reaches_step;
      [eapply skipn_lt; exact Hx | rewrite body_step by (eapply skipn_lt; exact Hx)
      | apply reaches_refl].
    unfold advance, step. rewrite Hx, Hs, Hd, Ht. simpl.
    now rewrite Nat.add_0_r.
  - destruct b as [|c b]; [apply (IH [] st rest); auto; simpl; lia|].
    simpl in Hx, Hb, Hn.
    pose proof (skipn_lt _ _ _ _ Hx) as Hlt.
    destruct (char_eqb c backslash) eqn:Ec.
    + destruct b as [|c1 b]; [discriminate|].
      eapply reaches_step; [exact Hlt | now apply body_step |].
      unfold advance, step. rewrite Hx, Hs, Ec. cbn [app orb andb].
      match goal with
      | |- reaches _ _ _ ?a _ => set (st1 := a)
      end.
      assert (E1 : skipn (i st1) x = b ++ dquote :: rest).
      { unfold st1. cbn [i]. rewrite skipn_plus, Hx. reflexivity. }
      pose proof (IH b st1 rest) as H. cbn [self result i st1] in H.
      unfold st1 in H. cbn [self result i] in H.
      specialize (H ltac:(simpl in Hn; lia) Hs Hd Hc Ht E1 Hb).
      cbn [map app List.length].
      rewrite <- app_assoc in H. cbn [app] in H.
      replace (i st + S (S (List.length b)) + 1)
        with (i st + 2 + List.length b + 1) by lia.
      exact H.
    + apply andb_prop in Hb. destruct Hb as [Hq Hb].
      apply negb_true_iff in Hq.
      eapply reaches_step; [exact Hlt | now apply body_step |].
      unfold advance, step. rewrite Hx, Hs, Hd, Hc, Ht, Ec.
      cbn [app orb andb is_delimiter]. rewrite Hq. cbn [orb andb].
      match goal with
      | |- reaches _ _ _ ?a _ => set (st1 := a)
      end.
      assert (E1 : skipn (i st1) x = b ++ dquote :: rest).
      { unfold st1. cbn [i]. rewrite skipn_plus, Hx. reflexivity. }
      pose proof (IH b st1 rest) as H.
      unfold st1 in H. cbn [self result i] in H.
      specialize (H ltac:(lia) Hs Hd Hc Ht E1 Hb).
      cbn [map app List.length].
      rewrite <- app_assoc in H. cbn [app] in H.
      replace (i st + S (List.length b) + 1)
        with (i st + 1 + List.length b + 1) by lia.
      exact H.
Qed.

(** The same from inside a character literal. *)
Lemma char_literal_copied (x : str) :
  forall (n : nat) (b : str) (st : Loop) (rest : str),
    List.length b <= n ->
    in_char (self st) = true ->
    in_string (self st) = false ->
    in_text_block (self st) = false ->
    skipn (i st) x = b ++ squote :: rest ->
    literal_body squote b = true ->
    reaches isspace lower x st
      {| self := set_in_char (self st) false;
         result := result st ++ map (fun c => [c]) (b ++ [squote]);
         i := i st + List.length b + 1 |}.
Proof.
  induction n as [|n IH]; intros b st rest Hn Hc Hs Ht Hx Hb.
  - destruct b; [|simpl in Hn; lia].
    simpl in Hx. eapply reaches_step;
      [eapply skipn_lt; exact Hx | rewrite body_step by (eapply skipn_lt; exact Hx)
      | apply reaches_refl].
    unfold advance, step. rewrite Hx, Hs, Hc, Ht. simpl.
    now rewrite Nat.add_0_r.
  - destruct b as [|c b]; [apply (IH [] st rest); auto; simpl; lia|].
    simpl in Hx, Hb, Hn.
    pose proof (skipn_lt _ _ _ _ Hx) as Hlt.
    destruct (char_eqb c backslash) eqn:Ec.
    + destruct b as [|c1 b]; [discriminate|].
      eapply reaches_step; [exact Hlt | now apply body_step |].
      unfold advance, step. rewrite Hx, Hs, Hc, Ec. cbn [app orb andb].
      match goal with
      | |- reaches _ _ _ ?a _ => set (st1 := a)
      end.
      assert (E1 : skipn (i st1) x = b ++ squote :: rest).
      { unfold st1. cbn [i]. rewrite skipn_plus, Hx. reflexivity. }
      pose proof (IH b st1 rest) as H.
      unfold st1 in H. cbn [self result i] in H.
      specialize (H ltac:(simpl in Hn; lia) Hc Hs Ht E1 Hb).
      cbn [map app List.length].
      rewrite <- app_assoc in H. cbn [app] in H.
      replace (i st + S (S (List.length b)) + 1)
        with (i st + 2 + List.length b + 1) by lia.
      exact H.
    + apply andb_prop in Hb. destruct Hb as [Hq Hb].
      apply negb_true_iff in Hq.
      eapply reaches_step; [exact Hlt | now apply body_step |].
      unfold advance, step. rewrite Hx, Hs, Hc, Ht, Ec.
      cbn [app orb andb]. rewrite Hq. cbn [orb andb].
      match goal with
      | |- reaches _ _ _ ?a _ => set (st1 := a)
      end.
      assert (E1 : skipn (i st1) x = b ++ squote :: rest).
      { unfold st1. cbn [i]. rewrite skipn_plus, Hx. reflexivity. }
      pose proof (IH b st1 rest) as H.
      unfold st1 in H. cbn [self result i] in H.
      specialize (H ltac:(lia) Hc Hs Ht E1 Hb).
      cbn [map app List.length].
      rewrite <- app_assoc in H. cbn [app] in H.
      replace (i st + S (List.length b) + 1)
        with (i st + 1 + List.length b + 1) by lia.
      exact H.
Qed.

(** ** Input without comments *)

Lemma reaches_states (x : str) (st st' : Loop) :
  reaches isspace lower x st st' ->
  forall fuel, List.length x - i st <= fuel ->
    In st' (states isspace lower fuel x st).
Proof.
  induction 1 as [|st st1 st2 Hlt Hb Hr IH]; intros fuel Hfuel.
  - destruct fuel; simpl; auto.
  - destruct fuel as [|fuel]; [lia|].
    simpl. right. rewrite (proj2 (Nat.ltb_lt _ _) Hlt), Hb.
    apply IH. rewrite (body_step _ _ Hlt) in Hb. injection Hb as <-.
    pose proof (advance_i _ _ Hlt). lia.
Qed.

(** An iteration that starts and ends with no comment flag set appends
    exactly the characters it consumes. *)
Lemma step_copies (s : JavaCommentRemover) (r : list str) (rest : str) :
  no_comment_flags s = true ->
  no_comment_flags (fst (fst (step s r rest))) = true ->
  join (snd (fst (step s r rest))) = firstn (snd (step s r rest)) rest.
Proof.
  destruct rest as [|c tl]; [reflexivity|].
  destruct s as [fs fc fl fm d ft q].
  unfold step, next_is, no_comment_flags.
  destruct tl as [|c1 [|c2 [|c3 tl]]]; step_cases;
    intros; try reflexivity; try discriminate; try chars_clash;
    repeat match goal with
           | H : char_eqb _ _ = true |- _ => apply N.eqb_eq in H; subst
           end; reflexivity.
Qed.

Lemma comment_free_unchanged (x : str) :
  comment_free isspace lower x = true ->
  exists s', remove_comments init x = Ok (s', x).
Proof.
  intros Hfree. unfold comment_free in Hfree.
  rewrite forallb_forall in Hfree.
  assert (Hflags : forall st, reaches isspace lower x (start init) st ->
                              no_comment_flags (self st) = true).
  { intros st Hr. apply Hfree. apply reaches_states; [exact Hr | simpl; lia]. }
  destruct (while_inv x
              (fun st => reaches isspace lower x (start init) st /\
                         join (result st) = firstn (i st) x))
    with (fuel := List.length x) (st := start init)
    as (st' & Hw & (_ & Hj) & Hi).
  - intros st [Hr Hj] Hlt.
    assert (Hr' : reaches isspace lower x (start init)
                    (advance st (skipn (i st) x))).
    { eapply reaches_trans; [exact Hr | now apply reaches_advance]. }
    split; [exact Hr'|].
    pose proof (Hflags _ Hr) as F1. pose proof (Hflags _ Hr') as F2.
    revert F2. unfold advance.
    pose proof (step_copies (self st) (result st) (skipn (i st) x) F1) as Hc.
    destruct (step (self st) (result st) (skipn (i st) x)) as [[s1 p] n].
    simpl in *. intros F2.
    now rewrite join_app, firstn_plus, Hj, (Hc F2).
  - split; [constructor | reflexivity].
  - simpl; lia.
  - simpl; lia.
  - exists (self st'). unfold remove_comments. fold (start init).
    rewrite Hw. cbn [bind]. now rewrite Hj, Hi, firstn_all.
Qed.

Lemma states_reaches (x : str) :
  forall fuel st st',
    In st' (states isspace lower fuel x st) ->
    reaches isspace lower x st st'.
Proof.
  induction fuel as [|fuel IH]; intros st st' Hin; simpl in Hin.
  - destruct Hin as [<-|Hin]; [constructor|].
    destruct (i st <? List.length x); destruct Hin.
  - destruct Hin as [<-|Hin]; [constructor|].
    destruct (Nat.ltb_spec (i st) (List.length x)) as [Hlt|Hge];
      [|destruct Hin].
    destruct (body x st) as [st1|e] eqn:Hb; [|destruct Hin].
    eapply reaches_step; eauto.
Qed.

Lemma opener_free_skipn (x : str) (n : nat) :
  opener_free x = true -> opener_free (skipn n x) = true.
Proof.
  revert x. induction n as [|n IH]; intros [|c x] H; auto.
  simpl in H. apply andb_prop in H. simpl. apply IH. tauto.
Qed.

Lemma step_opens_no_comment (s : JavaCommentRemover) (r : list str)
    (rest : str) :
  no_comment_flags s = true ->
  opener_free rest = true ->
  no_comment_flags (fst (fst (step s r rest))) = true.
Proof.
  destruct rest as [|c tl]; [auto|].
  destruct s as [fs fc fl fm d ft q].
  unfold step, no_comment_flags, opener_free, next_is.
  destruct tl as [|c1 tl]; step_cases; intros;
    try reflexivity; try discriminate; try congruence.
Qed.

(** A sufficient condition on the text alone: where no slash is followed
    by a slash or a star, the scanner finds no comment. *)
Lemma opener_free_comment_free (x : str) :
  opener_free x = true -> comment_free isspace lower x = true.
Proof.
  intros Hx. unfold comment_free. apply forallb_forall. intros st Hin.
  apply states_reaches in Hin.
  assert (H0 : no_comment_flags (self (start init)) = true) by reflexivity.
  revert H0. induction Hin as [|st st1 st2 Hlt Hb _ IH]; intros H0; auto.
  apply IH. rewrite (body_step _ _ Hlt) in Hb. injection Hb as <-.
  pose proof (step_opens_no_comment (self st) (result st)
                (skipn (i st) x) H0 (opener_free_skipn x (i st) Hx)) as H.
  unfold advance.
  destruct (step (self st) (result st) (skipn (i st) x)) as [[s1 p] n].
  exact H.
Qed.

(** C9: on an input in which the scanner finds no comment, scanning the
    output again, from a fresh instance, gives the same output. *)
Theorem remove_comments_idempotent (x : str) :
  comment_free isspace lower x = true ->
  exists s1 y s2,
    remove_comments init x = Ok (s1, y) /\
    remove_comments init y = Ok (s2, y).
Proof.
  intros Hfree. destruct (comment_free_unchanged x Hfree) as [s' Hx].
  exists s', x, s'. now split.
Qed.

(** ** Start of a line comment *)

Lemma skipn_nth_error (l : str) (n : nat) (c : char) :
  nth_error l n = Some c -> skipn n l = c :: skipn (S n) l.
Proof.
  revert l. induction n as [|n IH]; intros [|a l] H; try discriminate.
  - simpl in H. now injection H as ->.
  - simpl in H. simpl. now apply IH.
Qed.

Lemma code_mode_flags (s : JavaCommentRemover) :
  code_mode s = true ->
  in_string s = false /\ in_char s = false /\
  in_single_line_comment s = false /\ in_multi_line_comment s = false /\
  in_text_block s = false.
Proof.
  unfold code_mode.
  destruct (in_string s), (in_char s), (in_single_line_comment s),
    (in_multi_line_comment s), (in_text_block s); simpl; intros H;
    try discriminate; auto.
Qed.

(** Both branches of the conditional of line 134 are [result[-10:]]. *)
Lemma is_likely_url_window (r : list str) :
  is_likely_url r
  = existsb (fun indicator => contains indicator (lower (join (last_n 10 r))))
            url_indicators.
Proof.
  unfold is_likely_url, last_n.
  destruct (Nat.leb_spec 10 (List.length r)) as [H|H]; [reflexivity|].
  replace (List.length r - 10) with 0 by lia. reflexivity.
Qed.

Lemma length_join_single (l : list str) :
  Forall (fun p => List.length p = 1) l ->
  List.length (join l) = List.length l.
Proof.
  induction 1 as [|p l Hp _ IH]; [reflexivity|].
  unfold join in *. cbn [List.concat List.length].
  now rewrite length_app, IH, Hp.
Qed.

(** When the last [n] entries are single characters, joined they are the
    last [n] characters of the output. *)
Lemma last_n_join_single (r : list str) (n : nat) :
  Forall (fun p => List.length p = 1) (last_n n r) ->
  join (last_n n r) = last_n n (join r).
Proof.
  unfold last_n. intros Hs.
  pose proof (length_join_single _ Hs) as Hlen. rewrite length_skipn in Hlen.
  destruct (Nat.le_gt_cases n (List.length r)) as [Hn|Hn].
  - rewrite <- (firstn_skipn (List.length r - n) r) at 3 4.
    rewrite join_app, length_app, Hlen.
    replace (List.length (join (firstn (List.length r - n) r))
             + (List.length r - (List.length r - n)) - n)
      with (List.length (join (firstn (List.length r - n) r)) + 0) by lia.
    now rewrite skipn_plus, skipn_app, skipn_all, Nat.sub_diag.
  - replace (List.length r - n) with 0 in * by lia.
    simpl in Hlen. simpl skipn at 1.
    replace (List.length (join r) - n) with 0 by lia. reflexivity.
Qed.

(** C6, as the code has it: in plain code, at a slash followed by a slash,
    the scanner looks at the last ten entries of [result], joined and
    lower-cased.  When none of [http:], [https:], [ftp:], [file:] occurs
    there, both slashes are skipped and the line-comment flag is set;
    otherwise the first slash is appended as a regular character and the
    flags stay.  An entry is one appended piece: a single character, except
    that the three quotes opening a text block are one entry and the last
    two quotes closing it are another.  So the window is the last ten
    characters of the output exactly when those entries are single
    characters. *)
Theorem line_comment_unless_url (x : str) (st : Loop) :
  code_mode (self st) = true ->
  nth_error x (i st) = Some slash ->
  nth_error x (i st + 1) = Some slash ->
  let window := lower (join (last_n 10 (result st))) in
  let url := existsb (fun indicator => contains indicator window)
                     url_indicators in
  body x st
  = Ok (if url
        then {| self := self st; result := result st ++ [[slash]];
                i := i st + 1 |}
        else {| self := set_in_single_line_comment (self st) true;
                result := result st; i := i st + 2 |}) /\
  (Forall (fun p => List.length p = 1) (last_n 10 (result st)) ->
   join (last_n 10 (result st)) = last_n 10 (join (result st))).
Proof.
  intros Hcode H0 H1 window url. split; [|apply last_n_join_single].
  destruct (code_mode_flags _ Hcode) as (Hs & Hc & Hl & Hm & Ht).
  assert (Hlt : i st < List.length x).
  { apply nth_error_Some. congruence. }
  rewrite (body_step _ _ Hlt). f_equal.
  rewrite (skipn_nth_error _ _ _ H0).
  replace (S (i st)) with (i st + 1) by lia.
  rewrite (skipn_nth_error _ _ _ H1).
  unfold advance, step, next_is. rewrite Hs, Hc, Hl, Hm, Ht.
  rewrite is_likely_url_window. fold window. fold url.
  destruct url; cbn; now rewrite ?app_nil_r.
Qed.

(** ** Start of a text block *)

(** C7, as the code has it: in plain code, three double quotes open a text
    block exactly when a further character follows and it is a whitespace
    character (a newline is one).  Then the three quotes are appended as
    one entry and [i] moves past them.  Otherwise, and so also when the
    third quote is the last character of the input, the first quote opens
    a string literal by the ordinary rule and [i] moves by one. *)
Theorem text_block_opens_before_space (x : str) (st : Loop) (rest : str) :
  code_mode (self st) = true ->
  skipn (i st) x = dquote :: dquote :: dquote :: rest ->
  body x st
  = Ok (if match rest with
           | c3 :: _ => isspace c3 || char_eqb c3 newline
           | [] => false
           end
        then {| self := set_in_text_block (self st) true;
                result := result st ++ [[dquote; dquote; dquote]];
                i := i st + 3 |}
        else {| self := set_in_string (self st) true (Some dquote);
                result := result st ++ [[dquote]];
                i := i st + 1 |}).
Proof.
  intros Hcode Hx.
  destruct (code_mode_flags _ Hcode) as (Hs & Hc & Hl & Hm & Ht).
  rewrite (body_step _ _ (skipn_lt _ _ _ _ Hx)). f_equal.
  unfold advance, step, next_is. rewrite Hx, Hs, Hc, Hl, Hm, Ht.
  destruct rest as [|c3 rest]; [reflexivity|].
  cbn -[char_eqb Nat.add].
  destruct (isspace c3 || char_eqb c3 newline); cbn; reflexivity.
Qed.

(** ** Literals, from plain code *)

Lemma step_opens_string (s : JavaCommentRemover) (r : list str) (tl : str) :
  code_mode s = true ->
  opens_text_block isspace tl = false ->
  step s r (dquote :: tl) = (set_in_string s true (Some dquote), [[dquote]], 1).
Proof.
  intros H Htb. destruct (code_mode_flags _ H) as (Hs & Hc & Hl & Hm & Ht).
  unfold opens_text_block in Htb.
  unfold step, next_is. rewrite Hs, Hc, Hl, Hm, Ht.
  cbn [orb andb].
  change (char_eqb dquote dquote) with true.
  change (char_eqb dquote slash) with false.
  cbn [andb]. now rewrite Htb.
Qed.

Lemma step_opens_char (s : JavaCommentRemover) (r : list str) (tl : str) :
  code_mode s = true ->
  step s r (squote :: tl) = (set_in_char s true, [[squote]], 1).
Proof.
  intros H. destruct (code_mode_flags _ H) as (Hs & Hc & Hl & Hm & Ht).
  unfold step, next_is. rewrite Hs, Hc, Hl, Hm, Ht. reflexivity.
Qed.

Lemma code_mode_char (s : JavaCommentRemover) :
  code_mode s = true -> set_in_char (set_in_char s true) false = s.
Proof.
  intros H. destruct (code_mode_flags _ H) as (_ & Hc & _).
  destruct s. simpl in *. now subst.
Qed.

(** In plain code a double quote that starts no text block opens a string
    literal, which is copied up to its closing quote. *)
Lemma string_literal_from_code (x : str) (st : Loop) (b rest : str) :
  code_mode (self st) = true ->
  skipn (i st) x = dquote :: b ++ dquote :: rest ->
  literal_body dquote b = true ->
  opens_text_block isspace (b ++ dquote :: rest) = false ->
  reaches isspace lower x st
    {| self := set_in_string (self st) false None;
       result := result st ++ map (fun c => [c]) (dquote :: b ++ [dquote]);
       i := i st + List.length b + 2 |}.
Proof.
  intros Hcode Hx Hb Htb.
  destruct (code_mode_flags _ Hcode) as (Hs & Hc & Hl & Hm & Ht).
  pose proof (skipn_lt _ _ _ _ Hx) as Hlt.
  eapply reaches_step; [exact Hlt | now apply body_step |].
  unfold advance. rewrite Hx, (step_opens_string _ _ _ Hcode Htb).
  set (st1 := {| self := set_in_string (self st) true (Some dquote);
                 result := result st ++ [[dquote]]; i := i st + 1 |}).
  assert (E1 : skipn (i st1) x = b ++ dquote :: rest).
  { unfold st1. cbn [i]. rewrite skipn_plus, Hx. reflexivity. }
  pose proof (string_literal_copied x (List.length b) b st1 rest
                (le_n _) eq_refl eq_refl Hc Ht E1 Hb) as H.
  unfold st1 in H. cbn [self result i] in H.
  rewrite <- app_assoc in H. cbn [app map] in *.
  replace (i st + List.length b + 2) with (i st + 1 + List.length b + 1)
    by lia.
  exact H.
Qed.

(** In plain code a single quote opens a character literal, which is
    copied up to its closing quote. *)
Lemma char_literal_from_code (x : str) (st : Loop) (b rest : str) :
  code_mode (self st) = true ->
  skipn (i st) x = squote :: b ++ squote :: rest ->
  literal_body squote b = true ->
  reaches isspace lower x st
    {| self := self st;
       result := result st ++ map (fun c => [c]) (squote :: b ++ [squote]);
       i := i st + List.length b + 2 |}.
Proof.
  intros Hcode Hx Hb.
  destruct (code_mode_flags _ Hcode) as (Hs & Hc & Hl & Hm & Ht).
  pose proof (skipn_lt _ _ _ _ Hx) as Hlt.
  eapply reaches_step; [exact Hlt | now apply body_step |].
  unfold advance. rewrite Hx, (step_opens_char _ _ _ Hcode).
  set (st1 := {| self := set_in_char (self st) true;
                 result := result st ++ [[squote]]; i := i st + 1 |}).
  assert (E1 : skipn (i st1) x = b ++ squote :: rest).
  { unfold st1. cbn [i]. rewrite skipn_plus, Hx. reflexivity. }
  pose proof (char_literal_copied x (List.length b) b st1 rest
                (le_n _) eq_refl Hs Ht E1 Hb) as H.
  unfold st1 in H. cbn [self result i] in H.
  rewrite (code_mode_char _ Hcode) in H.
  rewrite <- app_assoc in H. cbn [app map] in *.
  replace (i st + List.length b + 2) with (i st + 1 + List.length b + 1)
    by lia.
  exact H.
Qed.

(** C2, as the code has it: the literals are those the scanner finds.  In
    plain code a double quote that starts no text block opens a string
    literal and a single quote opens a character literal; whatever the
    body [b] holds ([//], [/*] and [*/] included), the scanner appends the
    opening quote, [b] and the closing quote character by character, sets
    no comment flag, and is in plain code again.  The same holds from
    inside a literal, for what is left of it.  The Java lines assigning
    the URL string to [String url] and the slash and the star to [char c]
    and [char d] are returned unchanged.  What the scanner takes for plain
    code is not always code for the language: after a comment that the URL
    look-back has kept, a quote of that comment opens a literal. *)
Theorem literals_copied :
  (forall (x : str) (st : Loop) (b rest : str),
      code_mode (self st) = true ->
      skipn (i st) x = dquote :: b ++ dquote :: rest ->
      literal_body dquote b = true ->
      opens_text_block isspace (b ++ dquote :: rest) = false ->
      reaches isspace lower x st
        {| self := set_in_string (self st) false None;
           result := result st
                     ++ map (fun c => [c]) (dquote :: b ++ [dquote]);
           i := i st + List.length b + 2 |}) /\
  (forall (x : str) (st : Loop) (b rest : str),
      code_mode (self st) = true ->
      skipn (i st) x = squote :: b ++ squote :: rest ->
      literal_body squote b = true ->
      reaches isspace lower x st
        {| self := self st;
           result := result st
                     ++ map (fun c => [c]) (squote :: b ++ [squote]);
           i := i st + List.length b + 2 |}) /\
  (forall (x : str) (b : str) (st : Loop) (rest : str),
      in_string (self st) = true ->
      string_delimiter (self st) = Some dquote ->
      in_char (self st) = false ->
      in_text_block (self st) = false ->
      skipn (i st) x = b ++ dquote :: rest ->
      literal_body dquote b = true ->
      reaches isspace lower x st
        {| self := set_in_string (self st) false None;
           result := result st ++ map (fun c => [c]) (b ++ [dquote]);
           i := i st + List.length b + 1 |}) /\
  (forall (x : str) (b : str) (st : Loop) (rest : str),
      in_char (self st) = true ->
      in_string (self st) = false ->
      in_text_block (self st) = false ->
      skipn (i st) x = b ++ squote :: rest ->
      literal_body squote b = true ->
      reaches isspace lower x st
        {| self := set_in_char (self st) false;
           result := result st ++ map (fun c => [c]) (b ++ [squote]);
           i := i st + List.length b + 1 |}) /\
  (let x := lit "String url = " ++ [dquote] ++ lit "Visit http://example.com"
              ++ [dquote] ++ lit ";" in
   remove_comments init x = Ok (init, x)) /\
  (let x := lit "char c = '/'; char d = '*';" in
   remove_comments init x = Ok (init, x)).
Proof.
  split; [|split; [|split; [|split; [|split]]]].
  - exact string_literal_from_code.
  - exact char_literal_from_code.
  - intros x b st rest. now apply (string_literal_copied x (List.length b)).
  - intros x b st rest. now apply (char_literal_copied x (List.length b)).
  - vm_compute. reflexivity.
  - vm_compute. reflexivity.
Qed.

(** ** Block comments *)

(** C8: on [a();\n/* line1\nline2 */\nb();\n] the scanner returns
    [a();\n\n\nb();\n]: the delimiters and the body of the block comment
    are dropped and its two newlines are kept. *)
Theorem block_comment_example :
  remove_comments init
    (lit "a();" ++ [newline] ++ lit "/* line1" ++ [newline] ++ lit "line2 */"
       ++ [newline] ++ lit "b();" ++ [newline])
  = Ok (init, lit "a();" ++ [newline; newline; newline] ++ lit "b();" ++ [newline]).
Proof. vm_compute. reflexivity. Qed.

(** ** The scanner only deletes *)

Lemma Subseq_refl (a : str) : Subseq a a.
Proof.
  induction a; [apply Subseq_nil | now apply Subseq_take].
Qed.

Lemma Subseq_app (a b c d : str) :
  Subseq a b -> Subseq c d -> Subseq (a ++ c) (b ++ d).
Proof.
  intros Hab Hcd. induction Hab; simpl;
    [exact Hcd | apply Subseq_skip; auto | apply Subseq_take; auto].
Qed.

Lemma Subseq_length (a b : str) :
  Subseq a b -> List.length a <= List.length b.
Proof. induction 1; simpl; lia. Qed.

Lemma step_subseq (s : JavaCommentRemover) (r : list str) (rest : str) :
  Subseq (join (snd (fst (step s r rest)))) (firstn (snd (step s r rest)) rest).
Proof.
  destruct rest as [|c tl]; [constructor|].
  unfold step, next_is.
  destruct tl as [|c1 [|c2 [|c3 tl]]]; step_cases;
    repeat match goal with
           | H : char_eqb _ dquote = true |- _ => apply N.eqb_eq in H; subst
           end;
    repeat first [apply Subseq_nil | apply Subseq_take | apply Subseq_skip].
Qed.

(** X1: [remove_comments] only deletes.  From any flags, the string it
    returns is its input with some characters left out, in the same order;
    so it is never longer than the input. *)
Theorem remove_comments_subseq (s : JavaCommentRemover) (x : str) :
  exists s' out,
    remove_comments s x = Ok (s', out) /\
    Subseq out x /\
    List.length out <= List.length x.
Proof.
  destruct (while_inv x
              (fun st => Subseq (join (result st)) (firstn (i st) x)))
    with (fuel := List.length x) (st := start s)
    as (st' & Hw & Hsub & Hi).
  - intros st H _. unfold advance.
    pose proof (step_subseq (self st) (result st) (skipn (i st) x)) as Hs.
    destruct (step (self st) (result st) (skipn (i st) x)) as [[s1 p] n].
    simpl in *. rewrite join_app, firstn_plus. now apply Subseq_app.
  - constructor.
  - simpl; lia.
  - simpl; lia.
  - exists (self st'), (join (result st')).
    rewrite Hi, firstn_all in Hsub. split; [|split].
    + unfold remove_comments. fold (start s). now rewrite Hw.
    + exact Hsub.
    + now apply Subseq_length.
Qed.

(** ** The flags stay consistent *)

Lemma step_well_formed (s : JavaCommentRemover) (r : list str) (rest : str) :
  well_formed s = true ->
  well_formed (fst (fst (step s r rest))) = true.
Proof.
  destruct rest as [|c tl]; [auto|].
  destruct s as [fs fc fl fm d ft q]. unfold well_formed.
  destruct fs, fc, fl, fm, ft, d as [d|]; cbn -[char_eqb Z.eqb];
    intros H; try discriminate H;
    unfold step, next_is;
    destruct tl as [|c1 [|c2 [|c3 tl]]]; step_cases;
    repeat match goal with
           | H : _ && _ = true |- _ => apply andb_prop in H; destruct H
           end;
    repeat match goal with
           | H : _ = true |- _ => rewrite H
           end; auto.
Qed.

Lemma reaches_well_formed (x : str) (a b : Loop) :
  reaches isspace lower x a b ->
  well_formed (self a) = true -> well_formed (self b) = true.
Proof.
  induction 1 as [|st st1 st2 Hlt Hb _ IH]; intros H; auto.
  apply IH. rewrite (body_step _ _ Hlt) in Hb. injection Hb as <-.
  pose proof (step_well_formed (self st) (result st) (skipn (i st) x) H) as Hs.
  unfold advance.
  destruct (step (self st) (result st) (skipn (i st) x)) as [[s1 p] n].
  exact Hs.
Qed.

(** The state in which the loop ends is one the loop reaches. *)
Lemma remove_comments_reaches (x : str) (st : Loop) :
  i st <= List.length x ->
  exists st', reaches isspace lower x st st' /\
              i st' = List.length x /\
              forall fuel, List.length x - i st <= fuel ->
                           while fuel x st = Ok st'.
Proof.
  intros Hle.
  destruct (while_inv x (fun st' => reaches isspace lower x st st'))
    with (fuel := List.length x - i st) (st := st)
    as (st' & Hw & Hr & Hi); auto.
  - intros s1 Hr Hlt. eapply reaches_trans; [exact Hr|].
    now apply reaches_advance.
  - constructor.
  - exists st'. repeat split; auto.
    intros fuel Hf. rewrite <- Hw. apply while_fuel; lia.
Qed.

(** X2: the scanner keeps the flags consistent.  Started on an instance
    with at most one flag set, [string_delimiter] the double quote exactly
    when [in_string] is set and [text_block_quotes] 0 (a fresh instance is
    one), every iteration of the loop is in such a state and so is the
    instance when [remove_comments] returns. *)
Theorem remove_comments_well_formed (s0 : JavaCommentRemover) (x : str) :
  well_formed s0 = true ->
  (forall st, reaches isspace lower x (start s0) st ->
              well_formed (self st) = true) /\
  exists s' out, remove_comments s0 x = Ok (s', out) /\ well_formed s' = true.
Proof.
  intros H0. split.
  - intros st Hr. exact (reaches_well_formed x _ _ Hr H0).
  - destruct (remove_comments_reaches x (start s0)) as (st' & Hr & _ & Hw);
      [simpl; lia|].
    exists (self st'), (join (result st')). split.
    + unfold remove_comments. fold (start s0).
      rewrite Hw by (simpl; lia). reflexivity.
    + exact (reaches_well_formed x _ _ Hr H0).
Qed.

(** ** When the text is returned unchanged *)

Lemma step_length (s : JavaCommentRemover) (r : list str) (rest : str) :
  List.length (join (snd (fst (step s r rest)))) <= snd (step s r rest).
Proof.
  pose proof (Subseq_length _ _ (step_subseq s r rest)) as H.
  rewrite length_firstn in H. lia.
Qed.

(** An iteration that starts with no comment flag set and appends as many
    characters as it consumes sets no comment flag. *)
Lemma step_full_copy (s : JavaCommentRemover) (r : list str) (rest : str) :
  no_comment_flags s = true ->
  List.length (join (snd (fst (step s r rest)))) = snd (step s r rest) ->
  no_comment_flags (fst (fst (step s r rest))) = true.
Proof.
  destruct rest as [|c tl]; [auto|].
  destruct s as [fs fc fl fm d ft q].
  unfold step, next_is, no_comment_flags.
  destruct tl as [|c1 [|c2 [|c3 tl]]]; step_cases; intros;
    try reflexivity; try discriminate; try congruence.
Qed.

(** Along the scan the output never catches up with [i] once a comment
    flag has been set. *)
Lemma reaches_gap (x : str) (a b : Loop) :
  reaches isspace lower x a b ->
  List.length (join (result a)) <= i a ->
  List.length (join (result b)) + (i a - List.length (join (result a)))
  <= i b.
Proof.
  induction 1 as [st|st st1 st2 Hlt Hb _ IH]; intros Hle; [lia|].
  rewrite (body_step _ _ Hlt) in Hb. injection Hb as <-.
  revert IH. unfold advance.
  pose proof (step_length (self st) (result st) (skipn (i st) x)) as Hs.
  destruct (step (self st) (result st) (skipn (i st) x)) as [[s1 p] n].
  simpl in *. rewrite join_app, length_app. lia.
Qed.

Lemma reaches_clean (x : str) (a b : Loop) :
  reaches isspace lower x a b ->
  (List.length (join (result a)) = i a ->
   no_comment_flags (self a) = true) ->
  List.length (join (result a)) <= i a ->
  List.length (join (result b)) = i b ->
  no_comment_flags (self b) = true.
Proof.
  induction 1 as [st|st st1 st2 Hlt Hb _ IH]; intros Ha Hle Hfull; auto.
  rewrite (body_step _ _ Hlt) in Hb. injection Hb as <-.
  revert IH Hfull. unfold advance.
  pose proof (step_length (self st) (result st) (skipn (i st) x)) as Hs.
  pose proof (step_full_copy (self st) (result st) (skipn (i st) x)) as Hc.
  destruct (step (self st) (result st) (skipn (i st) x)) as [[s1 p] n].
  simpl in *. rewrite join_app, length_app. intros IH Hfull.
  apply IH; auto; try lia.
  intros E. apply Hc; [apply Ha|]; lia.
Qed.

Lemma reaches_bound (x : str) (a b : Loop) :
  reaches isspace lower x a b ->
  i a <= List.length x -> i b <= List.length x.
Proof.
  induction 1 as [st|st st1 st2 Hlt Hb _ IH]; intros Hle; auto.
  apply IH. rewrite (body_step _ _ Hlt) in Hb. injection Hb as <-.
  pose proof (advance_i x st Hlt). lia.
Qed.

(** X3: a fresh scanner returns its input unchanged exactly when it finds
    no comment in it, that is when no iteration sets a comment flag. *)
Theorem unchanged_iff_comment_free (x : str) :
  (exists s', remove_comments init x = Ok (s', x))
  <-> comment_free isspace lower x = true.
Proof.
  split; [|apply comment_free_unchanged].
  intros [s' Hrun]. unfold comment_free. apply forallb_forall.
  intros st Hin. apply states_reaches in Hin.
  destruct (remove_comments_reaches x st) as (stf & Hr & Hi & Hw).
  { apply (reaches_bound x _ _ Hin). simpl; lia. }
  unfold remove_comments in Hrun. fold (start init) in Hrun.
  rewrite (while_reaches x _ _ Hin) in Hrun by (simpl; lia).
  rewrite Hw in Hrun by (pose proof (reaches_i x _ _ Hin); simpl in *; lia).
  cbn [bind] in Hrun. injection Hrun as _ Hout.
  apply (reaches_clean x (start init) st Hin); [reflexivity | simpl; lia |].
  pose proof (reaches_gap x _ _ Hin) as G1. simpl in G1.
  pose proof (reaches_gap x _ _ Hr) as G2.
  rewrite Hout, Hi in G2. lia.
Qed.

(** X4: a text in which no slash is followed by a slash or a star is
    returned unchanged by a fresh scanner, whatever else it holds. *)
Theorem opener_free_unchanged (x : str) :
  opener_free x = true ->
  exists s', remove_comments init x = Ok (s', x).
Proof.
  intros H. apply comment_free_unchanged. now apply opener_free_comment_free.
Qed.

(** ** What is dropped and what is kept *)

(** In a line comment everything before the next newline is skipped; the
    newline is appended and ends the comment. *)
Lemma line_comment_skipped (x : str) :
  forall (n : nat) (b : str) (st : Loop) (rest : str),
    List.length b <= n ->
    in_single_line_comment (self st) = true ->
    in_string (self st) = false ->
    in_char (self st) = false ->
    in_text_block (self st) = false ->
    in_multi_line_comment (self st) = false ->
    skipn (i st) x = b ++ newline :: rest ->
    no_newline b = true ->
    reaches isspace lower x st
      {| self := set_in_single_line_comment (self st) false;
         result := result st ++ [[newline]];
         i := i st + List.length b + 1 |}.
Proof.
  induction n as [|n IH]; intros b st rest Hn Hl Hs Hc Ht Hm Hx Hb.
  - destruct b; [|simpl in Hn; lia].
    simpl in Hx. eapply reaches_step;
      [eapply skipn_lt; exact Hx | rewrite body_step by (eapply skipn_lt; exact Hx)
      | apply reaches_refl].
    unfold advance, step. rewrite Hx, Hs, Hc, Ht, Hl. simpl.
    now rewrite Nat.add_0_r.
  - destruct b as [|c b]; [apply (IH [] st rest); auto; simpl; lia|].
    simpl in Hx, Hb, Hn.
    apply andb_prop in Hb. destruct Hb as [Hq Hb]. apply negb_true_iff in Hq.
    pose proof (skipn_lt _ _ _ _ Hx) as Hlt.
    eapply reaches_step; [exact Hlt | now apply body_step |].
    unfold advance, step. rewrite Hx, Hs, Hc, Ht, Hl, Hm.
    cbn [app orb andb]. rewrite Hq. cbn [andb]. rewrite app_nil_r.
    match goal with
    | |- reaches _ _ _ ?a _ => set (st1 := a)
    end.
    assert (E1 : skipn (i st1) x = b ++ newline :: rest).
    { unfold st1. cbn [i]. rewrite skipn_plus, Hx. reflexivity. }
    pose proof (IH b st1 rest) as H.
    unfold st1 in H. cbn [self result i] in H.
    specialize (H ltac:(lia) Hl Hs Hc Ht Hm E1 Hb).
    cbn [List.length].
    replace (i st + S (List.length b) + 1)
      with (i st + 1 + List.length b + 1) by lia.
    exact H.
Qed.

Lemma code_mode_single (s : JavaCommentRemover) :
  code_mode s = true ->
  set_in_single_line_comment (set_in_single_line_comment s true) false = s.
Proof.
  intros H. destruct (code_mode_flags _ H) as (_ & _ & Hl & _).
  destruct s. simpl in *. now subst.
Qed.

Lemma step_opens_line_comment (s : JavaCommentRemover) (r : list str)
    (tl : str) :
  code_mode s = true ->
  is_likely_url r = false ->
  step s r (slash :: slash :: tl)
  = (set_in_single_line_comment s true, [], 2).
Proof.
  intros H Hurl. destruct (code_mode_flags _ H) as (Hs & Hc & Hl & Hm & Ht).
  unfold step, next_is. rewrite Hs, Hc, Hl, Hm, Ht, Hurl. reflexivity.
Qed.

Lemma line_comment_from_code (x : str) (st : Loop) (b rest : str) :
  code_mode (self st) = true ->
  is_likely_url (result st) = false ->
  skipn (i st) x = slash :: slash :: b ++ newline :: rest ->
  no_newline b = true ->
  reaches isspace lower x st
    {| self := self st;
       result := result st ++ [[newline]];
       i := i st + 2 + List.length b + 1 |}.
Proof.
  intros Hcode Hurl Hx Hb.
  destruct (code_mode_flags _ Hcode) as (Hs & Hc & Hl & Hm & Ht).
  pose proof (skipn_lt _ _ _ _ Hx) as Hlt.
  eapply reaches_step; [exact Hlt | now apply body_step |].
  unfold advance. rewrite Hx, (step_opens_line_comment _ _ _ Hcode Hurl).
  rewrite app_nil_r.
  set (st1 := {| self := set_in_single_line_comment (self st) true;
                 result := result st; i := i st + 2 |}).
  assert (E1 : skipn (i st1) x = b ++ newline :: rest).
  { unfold st1. cbn [i]. rewrite skipn_plus, Hx. reflexivity. }
  pose proof (line_comment_skipped x (List.length b) b st1 rest
                (le_n _) eq_refl Hs Hc Ht Hm E1 Hb) as H.
  unfold st1 in H. cbn [self result i] in H.
  now rewrite (code_mode_single _ Hcode) in H.
Qed.

(** X5: a line comment is dropped and its newline kept.  In plain code, at
    two slashes that the URL look-back does not hold back, the scanner
    skips the slashes and everything up to the next newline, appends that
    newline, and is in plain code again with the flags it had. *)
Theorem line_comment_removed (x : str) (st : Loop) (b rest : str) :
  code_mode (self st) = true ->
  is_likely_url (result st) = false ->
  skipn (i st) x = slash :: slash :: b ++ newline :: rest ->
  no_newline b = true ->
  reaches isspace lower x st
    {| self := self st;
       result := result st ++ [[newline]];
       i := i st + 2 + List.length b + 1 |}.
Proof. exact (line_comment_from_code x st b rest). Qed.

Lemma reaches_self (x : str) (st : Loop) :
  reaches isspace lower x st
    {| self := self st; result := result st; i := i st + 0 |}.
Proof. destruct st. simpl. rewrite Nat.add_0_r. constructor. Qed.

(** In a line comment, characters that are no newline are skipped. *)
Lemma line_comment_body_skipped (x : str) :
  forall (n : nat) (b : str) (st : Loop) (tail : str),
    List.length b <= n ->
    in_single_line_comment (self st) = true ->
    in_string (self st) = false ->
    in_char (self st) = false ->
    in_text_block (self st) = false ->
    in_multi_line_comment (self st) = false ->
    skipn (i st) x = b ++ tail ->
    no_newline b = true ->
    reaches isspace lower x st
      {| self := self st; result := result st;
         i := i st + List.length b |}.
Proof.
  induction n as [|n IH]; intros b st tail Hn Hl Hs Hc Ht Hm Hx Hb.
  - destruct b; [|simpl in Hn; lia]. apply reaches_self.
  - destruct b as [|c b]; [apply reaches_self|].
    simpl in Hx, Hb, Hn.
    apply andb_prop in Hb. destruct Hb as [Hq Hb]. apply negb_true_iff in Hq.
    pose proof (skipn_lt _ _ _ _ Hx) as Hlt.
    eapply reaches_step; [exact Hlt | now apply body_step |].
    unfold advance, step. rewrite Hx, Hs, Hc, Ht, Hl, Hm.
    cbn [app orb andb]. rewrite Hq. cbn [andb]. rewrite app_nil_r.
    match goal with
    | |- reaches _ _ _ ?a _ => set (st1 := a)
    end.
    assert (E1 : skipn (i st1) x = b ++ tail).
    { unfold st1. cbn [i]. rewrite skipn_plus, Hx. reflexivity. }
    pose proof (IH b st1 tail) as H.
    unfold st1 in H. cbn [self result i] in H.
    specialize (H ltac:(lia) Hl Hs Hc Ht Hm E1 Hb).
    cbn [List.length].
    replace (i st + S (List.length b)) with (i st + 1 + List.length b) by lia.
    exact H.
Qed.

(** X6: a line comment that the input ends in, with no newline after it,
    is dropped whole: when the scan is in plain code at two slashes that
    the URL look-back does not hold back and no newline follows,
    [remove_comments] returns what was appended before the slashes and
    leaves the instance in the line comment. *)
Theorem line_comment_at_end
    (s0 : JavaCommentRemover) (x : str) (st : Loop) (b : str) :
  reaches isspace lower x (start s0) st ->
  code_mode (self st) = true ->
  is_likely_url (result st) = false ->
  skipn (i st) x = slash :: slash :: b ->
  no_newline b = true ->
  remove_comments s0 x
  = Ok (set_in_single_line_comment (self st) true, join (result st)).
Proof.
  intros Hr Hcode Hurl Hx Hb.
  destruct (code_mode_flags _ Hcode) as (Hs & Hc & Hl & Hm & Ht).
  pose proof (skipn_lt _ _ _ _ Hx) as Hlt.
  assert (Hlen : List.length x = i st + 2 + List.length b).
  { pose proof (f_equal (@List.length _) Hx) as E.
    rewrite length_skipn in E. simpl in E. lia. }
  set (st1 := {| self := set_in_single_line_comment (self st) true;
                 result := result st; i := i st + 2 |}).
  assert (H1 : reaches isspace lower x st st1).
  { eapply reaches_step; [exact Hlt | now apply body_step |].
    unfold advance. rewrite Hx, (step_opens_line_comment _ _ _ Hcode Hurl).
    rewrite app_nil_r. constructor. }
  assert (E1 : skipn (i st1) x = b ++ []).
  { unfold st1. cbn [i]. rewrite skipn_plus, Hx, app_nil_r. reflexivity. }
  pose proof (line_comment_body_skipped x (List.length b) b st1 []
                (le_n _) eq_refl Hs Hc Ht Hm E1 Hb) as H2.
  unfold remove_comments. fold (start s0).
  rewrite (while_reaches x _ _
             (reaches_trans x _ _ _ Hr (reaches_trans x _ _ _ H1 H2)))
    by (simpl; lia).
  rewrite while_done by (unfold st1; simpl; lia).
  reflexivity.
Qed.

(** ** Block comments: what is dropped *)

Lemma no_close_here (c : char) (b tail : str) :
  contains [star; slash] (c :: b) = false ->
  next_is tail slash = false ->
  char_eqb c star && next_is (b ++ tail) slash = false.
Proof.
  intros H Ht. cbn [contains startswith] in H.
  apply orb_false_elim in H. destruct H as [H _].
  unfold char_eqb in *. rewrite (N.eqb_sym c star).
  destruct (N.eqb star c); [|reflexivity]. cbn [andb] in *.
  destruct b as [|c1 b]; cbn [app next_is]; [exact Ht|].
  unfold char_eqb. rewrite (N.eqb_sym c1 slash).
  now rewrite andb_true_r in H.
Qed.

Lemma contains_tail (p : str) (c : char) (b : str) :
  contains p (c :: b) = false -> contains p b = false.
Proof.
  intros H. cbn [contains] in H. apply orb_false_elim in H. tauto.
Qed.

(** In a block comment, up to the first star followed by a slash, the
    newlines are appended and everything else is skipped. *)
Lemma block_comment_body_skipped (x : str) :
  forall (n : nat) (b : str) (st : Loop) (tail : str),
    List.length b <= n ->
    in_multi_line_comment (self st) = true ->
    in_string (self st) = false ->
    in_char (self st) = false ->
    in_text_block (self st) = false ->
    in_single_line_comment (self st) = false ->
    skipn (i st) x = b ++ tail ->
    contains [star; slash] b = false ->
    next_is tail slash = false ->
    reaches isspace lower x st
      {| self := self st;
         result := result st
                   ++ map (fun c => [c])
                        (filter (fun c => char_eqb c newline) b);
         i := i st + List.length b |}.
Proof.
  induction n as [|n IH]; intros b st tail Hn Hm Hs Hc Ht Hl Hx Hb Htail.
  - destruct b; [|simpl in Hn; lia]. simpl. rewrite app_nil_r.
    apply reaches_self.
  - destruct b as [|c b]; [simpl; rewrite app_nil_r; apply reaches_self|].
    simpl in Hx, Hn.
    pose proof (no_close_here c b tail Hb Htail) as Hno.
    apply contains_tail in Hb.
    pose proof (skipn_lt _ _ _ _ Hx) as Hlt.
    eapply reaches_step; [exact Hlt | now apply body_step |].
    unfold advance, step. rewrite Hx, Hs, Hc, Ht, Hl, Hm.
    cbn [app orb andb]. rewrite Hno.
    cbn [List.length filter].
    replace (i st + S (List.length b)) with (i st + 1 + List.length b) by lia.
    destruct (char_eqb c newline); cbn [map]; rewrite ?app_nil_r;
      match goal with
      | |- reaches _ _ _ ?a _ => set (st1 := a)
      end;
      (assert (E1 : skipn (i st1) x = b ++ tail)
        by (unfold st1; cbn [i]; rewrite skipn_plus, Hx; reflexivity));
      pose proof (IH b st1 tail) as H;
      unfold st1 in H; cbn [self result i] in H;
      specialize (H ltac:(lia) Hm Hs Hc Ht Hl E1 Hb Htail);
      rewrite <- ?app_assoc in H; exact H.
Qed.

Lemma code_mode_multi (s : JavaCommentRemover) :
  code_mode s = true ->
  set_in_multi_line_comment (set_in_multi_line_comment s true) false = s.
Proof.
  intros H. destruct (code_mode_flags _ H) as (_ & _ & _ & Hm & _).
  destruct s. simpl in *. now subst.
Qed.

Lemma step_opens_block_comment (s : JavaCommentRemover) (r : list str)
    (tl : str) :
  code_mode s = true ->
  step s r (slash :: star :: tl) = (set_in_multi_line_comment s true, [], 2).
Proof.
  intros H. destruct (code_mode_flags _ H) as (Hs & Hc & Hl & Hm & Ht).
  unfold step, next_is. rewrite Hs, Hc, Hl, Hm, Ht. reflexivity.
Qed.

Lemma block_comment_from_code (x : str) (st : Loop) (b rest : str) :
  code_mode (self st) = true ->
  skipn (i st) x = slash :: star :: b ++ star :: slash :: rest ->
  contains [star; slash] b = false ->
  reaches isspace lower x st
    {| self := self st;
       result := result st
                 ++ map (fun c => [c]) (filter (fun c => char_eqb c newline) b);
       i := i st + 2 + List.length b + 2 |}.
Proof.
  intros Hcode Hx Hb.
  destruct (code_mode_flags _ Hcode) as (Hs & Hc & Hl & Hm & Ht).
  pose proof (skipn_lt _ _ _ _ Hx) as Hlt.
  eapply reaches_step; [exact Hlt | now apply body_step |].
  unfold advance. rewrite Hx, (step_opens_block_comment _ _ _ Hcode).
  rewrite app_nil_r.
  set (st1 := {| self := set_in_multi_line_comment (self st) true;
                 result := result st; i := i st + 2 |}).
  assert (E1 : skipn (i st1) x = b ++ star :: slash :: rest).
  { unfold st1. cbn [i]. rewrite skipn_plus, Hx. reflexivity. }
  pose proof (block_comment_body_skipped x (List.length b) b st1
                (star :: slash :: rest)
                (le_n _) eq_refl Hs Hc Ht Hl E1 Hb eq_refl) as H.
  unfold st1 in H. cbn [self result i] in H.
  eapply reaches_trans; [exact H|].
  match goal with
  | |- reaches _ _ _ ?a _ => set (st2 := a)
  end.
  assert (E2 : skipn (i st2) x = star :: slash :: rest).
  { unfold st2. cbn [i]. rewrite <- Nat.add_assoc, skipn_plus, Hx.
    cbn [Nat.add skipn].
    rewrite skipn_app, skipn_all, Nat.sub_diag. reflexivity. }
  eapply reaches_step;
    [exact (skipn_lt _ _ _ _ E2)
    | apply body_step; exact (skipn_lt _ _ _ _ E2) | ].
  unfold advance, step, next_is. rewrite E2. unfold st2. cbn [self result i].
  cbn [in_string in_char in_text_block in_single_line_comment
       in_multi_line_comment set_in_multi_line_comment].
  rewrite Hs, Hc, Ht, Hl. cbn. rewrite app_nil_r.
  rewrite (code_mode_multi _ Hcode). constructor.
Qed.

(** X7: a block comment is dropped up to its first closing star and
    slash, and its newlines are kept.  In plain code, at a slash and a
    star, the scanner skips both, then everything up to and including the
    first star followed by a slash, appending only the newlines between,
    and is in plain code again with the flags it had. *)
Theorem block_comment_removed (x : str) (st : Loop) (b rest : str) :
  code_mode (self st) = true ->
  skipn (i st) x = slash :: star :: b ++ star :: slash :: rest ->
  contains [star; slash] b = false ->
  reaches isspace lower x st
    {| self := self st;
       result := result st
                 ++ map (fun c => [c]) (filter (fun c => char_eqb c newline) b);
       i := i st + 2 + List.length b + 2 |}.
Proof. exact (block_comment_from_code x st b rest). Qed.

Lemma join_singles (l : str) : join (map (fun c => [c]) l) = l.
Proof.
  unfold join. induction l as [|c l IH]; [reflexivity|].
  cbn [map List.concat app]. now rewrite IH.
Qed.

(** X8: a block comment that is never closed runs to the end of the
    input: when the scan is in plain code at a slash and a star and no
    star followed by a slash comes after, [remove_comments] returns what
    was appended before, followed by the newlines of the rest, and leaves
    the instance in the block comment. *)
Theorem block_comment_at_end
    (s0 : JavaCommentRemover) (x : str) (st : Loop) (b : str) :
  reaches isspace lower x (start s0) st ->
  code_mode (self st) = true ->
  skipn (i st) x = slash :: star :: b ->
  contains [star; slash] b = false ->
  remove_comments s0 x
  = Ok (set_in_multi_line_comment (self st) true,
        join (result st) ++ filter (fun c => char_eqb c newline) b).
Proof.
  intros Hr Hcode Hx Hb.
  destruct (code_mode_flags _ Hcode) as (Hs & Hc & Hl & Hm & Ht).
  pose proof (skipn_lt _ _ _ _ Hx) as Hlt.
  assert (Hlen : List.length x = i st + 2 + List.length b).
  { pose proof (f_equal (@List.length _) Hx) as E.
    rewrite length_skipn in E. simpl in E. lia. }
  set (st1 := {| self := set_in_multi_line_comment (self st) true;
                 result := result st; i := i st + 2 |}).
  assert (H1 : reaches isspace lower x st st1).
  { eapply reaches_step; [exact Hlt | now apply body_step |].
    unfold advance. rewrite Hx, (step_opens_block_comment _ _ _ Hcode).
    rewrite app_nil_r. constructor. }
  assert (E1 : skipn (i st1) x = b ++ []).
  { unfold st1. cbn [i]. rewrite skipn_plus, Hx, app_nil_r. reflexivity. }
  pose proof (block_comment_body_skipped x (List.length b) b st1 []
                (le_n _) eq_refl Hs Hc Ht Hl E1 Hb eq_refl) as H2.
  unfold remove_comments. fold (start s0).
  rewrite (while_reaches x _ _
             (reaches_trans x _ _ _ Hr (reaches_trans x _ _ _ H1 H2)))
    by (simpl; lia).
  rewrite while_done by (unfold st1; simpl; lia).
  unfold st1. cbn [bind self result]. now rewrite join_app, join_singles.
Qed.

(** ** Text blocks: what is kept *)

Lemma firstn_2_app (b tl : str) :
  firstn 2 (b ++ dquote :: dquote :: tl) = firstn 2 (b ++ [dquote; dquote]).
Proof. destruct b as [|a [|a' b]]; reflexivity. Qed.

(** In a text block the body and the three closing quotes are appended,
    the body character by character. *)
Lemma text_block_body_copied (x : str) :
  forall (n : nat) (b : str) (st : Loop) (rest : str),
    List.length b <= n ->
    in_text_block (self st) = true ->
    in_string (self st) = false ->
    in_char (self st) = false ->
    skipn (i st) x = b ++ dquote :: dquote :: dquote :: rest ->
    text_block_body b = true ->
    reaches isspace lower x st
      {| self := set_in_text_block (self st) false;
         result := result st ++ map (fun c => [c]) b
                   ++ [[dquote]; [dquote; dquote]];
         i := i st + List.length b + 3 |}.
Proof.
  induction n as [|n IH]; intros b st rest Hn Ht Hs Hc Hx Hb.
  - destruct b; [|simpl in Hn; lia].
    simpl in Hx. eapply reaches_step;
      [eapply skipn_lt; exact Hx | rewrite body_step by (eapply skipn_lt; exact Hx)
      | apply reaches_refl].
    unfold advance, step. rewrite Hx, Hs, Hc, Ht. simpl.
    now rewrite Nat.add_0_r.
  - destruct b as [|c b]; [apply (IH [] st rest); auto; simpl; lia|].
    cbn [app] in Hx. cbn [text_block_body] in Hb. simpl in Hn.
    pose proof (skipn_lt _ _ _ _ Hx) as Hlt.
    destruct (char_eqb c backslash) eqn:Ec.
    + destruct b as [|c1 b]; [discriminate|].
      eapply reaches_step; [exact Hlt | now apply body_step |].
      unfold advance, step. rewrite Hx, Hs, Hc, Ht, Ec. cbn [app orb andb].
      match goal with
      | |- reaches _ _ _ ?a _ => set (st1 := a)
      end.
      assert (E1 : skipn (i st1) x
                   = b ++ dquote :: dquote :: dquote :: rest).
      { unfold st1. cbn [i]. rewrite skipn_plus, Hx. reflexivity. }
      pose proof (IH b st1 rest) as H.
      unfold st1 in H. cbn [self result i] in H.
      specialize (H ltac:(simpl in Hn; lia) Ht Hs Hc E1 Hb).
      cbn [map app List.length].
      rewrite <- app_assoc in H. cbn [app] in H.
      replace (i st + S (S (List.length b)) + 3)
        with (i st + 2 + List.length b + 3) by lia.
      exact H.
    + assert (Hno : char_eqb c dquote
                    && str_eqb (firstn 2 (b ++ dquote :: dquote :: dquote :: rest))
                         [dquote; dquote] = false).
      { destruct (char_eqb c dquote); [|reflexivity].
        apply andb_prop in Hb. destruct Hb as [Hq _].
        apply negb_true_iff in Hq. now rewrite firstn_2_app. }
      assert (Hb' : text_block_body b = true).
      { destruct (char_eqb c dquote); [|exact Hb].
        apply andb_prop in Hb. tauto. }
      eapply reaches_step; [exact Hlt | now apply body_step |].
      unfold advance, step. rewrite Hx, Hs, Hc, Ht, Ec.
      cbn [app orb andb]. rewrite Hno.
      match goal with
      | |- reaches _ _ _ ?a _ => set (st1 := a)
      end.
      assert (E1 : skipn (i st1) x
                   = b ++ dquote :: dquote :: dquote :: rest).
      { unfold st1. cbn [i]. rewrite skipn_plus, Hx. reflexivity. }
      pose proof (IH b st1 rest) as H.
      unfold st1 in H. cbn [self result i] in H.
      specialize (H ltac:(lia) Ht Hs Hc E1 Hb').
      cbn [map app List.length].
      rewrite <- app_assoc in H. cbn [app] in H.
      replace (i st + S (List.length b) + 3)
        with (i st + 1 + List.length b + 3) by lia.
      exact H.
Qed.

Lemma code_mode_text_block (s : JavaCommentRemover) :
  code_mode s = true ->
  set_in_text_block (set_in_text_block s true) false = s.
Proof.
  intros H. destruct (code_mode_flags _ H) as (_ & _ & _ & _ & Ht).
  destruct s. simpl in *. now subst.
Qed.

Lemma step_opens_text_block (s : JavaCommentRemover) (r : list str)
    (w : char) (tl : str) :
  code_mode s = true ->
  isspace w || char_eqb w newline = true ->
  step s r (dquote :: dquote :: dquote :: w :: tl)
  = (set_in_text_block s true, [[dquote; dquote; dquote]], 3).
Proof.
  intros H Hw. destruct (code_mode_flags _ H) as (Hs & Hc & Hl & Hm & Ht).
  unfold step, next_is. rewrite Hs, Hc, Hl, Hm, Ht.
  cbn [orb andb firstn skipn str_eqb].
  change (char_eqb dquote dquote) with true. cbn [andb].
  now rewrite Hw.
Qed.

(** X9: a text block is kept as it is, comment-like text included.  In
    plain code, at three double quotes followed by a whitespace character
    [w], the scanner appends the quotes, then every character of the body
    [w :: b] up to the next three quotes, then those quotes, and is in
    plain code again with the flags it had: what it appends is what it
    has read. *)
Theorem text_block_kept (x : str) (st : Loop) (w : char) (b rest : str) :
  code_mode (self st) = true ->
  isspace w || char_eqb w newline = true ->
  skipn (i st) x
  = dquote :: dquote :: dquote :: (w :: b)
    ++ dquote :: dquote :: dquote :: rest ->
  text_block_body (w :: b) = true ->
  reaches isspace lower x st
    {| self := self st;
       result := result st ++ [[dquote; dquote; dquote]]
                 ++ map (fun c => [c]) (w :: b)
                 ++ [[dquote]; [dquote; dquote]];
       i := i st + 3 + List.length (w :: b) + 3 |}.
Proof.
  intros Hcode Hw Hx Hb.
  destruct (code_mode_flags _ Hcode) as (Hs & Hc & Hl & Hm & Ht).
  pose proof (skipn_lt _ _ _ _ Hx) as Hlt.
  eapply reaches_step; [exact Hlt | now apply body_step |].
  unfold advance. rewrite Hx. cbn [app].
  rewrite (step_opens_text_block _ _ _ _ Hcode Hw).
  set (st1 := {| self := set_in_text_block (self st) true;
                 result := result st ++ [[dquote; dquote; dquote]];
                 i := i st + 3 |}).
  assert (E1 : skipn (i st1) x
               = (w :: b) ++ dquote :: dquote :: dquote :: rest).
  { unfold st1. cbn [i]. rewrite skipn_plus, Hx. reflexivity. }
  pose proof (text_block_body_copied x (List.length (w :: b)) (w :: b) st1
                rest (le_n _) eq_refl Hs Hc E1 Hb) as H.
  unfold st1 in H. cbn [self result i] in H.
  rewrite (code_mode_text_block _ Hcode) in H.
  rewrite <- app_assoc in H. exact H.
Qed.

(** ** Line by line *)

Lemma KeepsLines_app (a b c d : str) :
  KeepsLines a b -> KeepsLines c d -> KeepsLines (a ++ c) (b ++ d).
Proof.
  intros Hab Hcd. induction Hab; simpl;
    [exact Hcd | apply KeepsLines_drop; auto | apply KeepsLines_keep; auto].
Qed.

Lemma split_lines_cons (s : str) : exists l ls, split_lines s = l :: ls.
Proof.
  induction s as [|c s (l & ls & E)]; simpl; [eauto|].
  destruct (char_eqb c newline); [eauto|]. rewrite E. eauto.
Qed.

Lemma KeepsLines_split (a b : str) :
  KeepsLines a b -> Forall2 Subseq (split_lines a) (split_lines b).
Proof.
  induction 1 as [|a b c Hc _ IH|a b c _ IH].
  - repeat constructor.
  - simpl. rewrite Hc.
    destruct (split_lines_cons b) as (l & ls & E). rewrite E in *.
    inversion IH; subst. constructor; auto. now apply Subseq_skip.
  - simpl. destruct (char_eqb c newline).
    + constructor; [constructor | exact IH].
    + destruct (split_lines_cons a) as (l & ls & E).
      destruct (split_lines_cons b) as (l' & ls' & E').
      rewrite E, E' in *. inversion IH; subst.
      constructor; auto. now apply Subseq_take.
Qed.

Lemma step_keeps_lines (s : JavaCommentRemover) (r : list str) (rest : str) :
  KeepsLines (join (snd (fst (step s r rest))))
             (firstn (snd (step s r rest)) rest).
Proof.
  destruct rest as [|c tl]; [constructor|].
  unfold step, next_is.
  destruct tl as [|c1 [|c2 [|c3 tl]]]; step_cases;
    repeat match goal with
           | H : char_eqb _ _ = true |- _ => apply N.eqb_eq in H; subst
           end;
    repeat first
      [ apply KeepsLines_nil
      | apply KeepsLines_keep
      | apply KeepsLines_drop; [first [assumption | reflexivity]|] ].
Qed.

(** X10: line numbers are kept.  From any flags, the string returned by
    [remove_comments] has as many lines as the input, and each of its lines
    is the line of the input with the same number with some characters
    left out. *)
Theorem remove_comments_line_by_line (s : JavaCommentRemover) (x : str) :
  exists s' out,
    remove_comments s x = Ok (s', out) /\
    Forall2 Subseq (split_lines out) (split_lines x).
Proof.
  destruct (while_inv x
              (fun st => KeepsLines (join (result st)) (firstn (i st) x)))
    with (fuel := List.length x) (st := start s)
    as (st' & Hw & Hk & Hi).
  - intros st H _. unfold advance.
    pose proof (step_keeps_lines (self st) (result st) (skipn (i st) x)) as Hs.
    destruct (step (self st) (result st) (skipn (i st) x)) as [[s1 p] n].
    simpl in *. rewrite join_app, firstn_plus. now apply KeepsLines_app.
  - constructor.
  - simpl; lia.
  - simpl; lia.
  - exists (self st'), (join (result st')).
    rewrite Hi, firstn_all in Hk. split.
    + unfold remove_comments. fold (start s). now rewrite Hw.
    + now apply KeepsLines_split.
Qed.

(** ** The URL look-back at work *)

Lemma contains_unfold (needle hay : str) :
  contains needle hay
  = startswith needle hay
    || match hay with
       | [] => false
       | _ :: t => contains needle t
       end.
Proof. destruct hay; reflexivity. Qed.

Lemma startswith_app (p tl : str) : startswith p (p ++ tl) = true.
Proof.
  induction p as [|a p IH]; [reflexivity|].
  simpl. unfold char_eqb. now rewrite N.eqb_refl.
Qed.

Lemma contains_app (pre needle post : str) :
  contains needle (pre ++ needle ++ post) = true.
Proof.
  induction pre as [|a pre IH].
  - cbn [app]. rewrite contains_unfold. now rewrite startswith_app.
  - cbn [app]. rewrite contains_unfold, IH. apply orb_true_r.
Qed.

Lemma last_n_app (A : Type) (r m : list A) (n : nat) :
  List.length m <= n ->
  last_n n (r ++ m) = last_n (n - List.length m) r ++ m.
Proof.
  intros H. unfold last_n. rewrite length_app, skipn_app.
  replace (List.length r + List.length m - n)
    with (List.length r - (n - List.length m)) by lia.
  replace (List.length r - (n - List.length m) - List.length r) with 0 by lia.
  reflexivity.
Qed.

(** X11: two slashes right after a URL scheme are kept.  In plain code,
    when the last entries of [result] are the characters of a string [s]
    of at most ten characters that [lower] turns into one of [http:],
    [https:], [ftp:], [file:] whatever precedes it, a slash followed by a
    slash starts no comment: the slash is appended as a regular character
    and the flags stay. *)
Theorem scheme_keeps_slashes
    (x : str) (st : Loop) (r : list str) (s indicator : str) :
  code_mode (self st) = true ->
  nth_error x (i st) = Some slash ->
  nth_error x (i st + 1) = Some slash ->
  In indicator url_indicators ->
  result st = r ++ map (fun c => [c]) s ->
  List.length s <= 10 ->
  (forall a, exists a', lower (a ++ s) = a' ++ indicator) ->
  body x st
  = Ok {| self := self st; result := result st ++ [[slash]];
          i := i st + 1 |}.
Proof.
  intros Hcode H0 H1 Hin Hres Hlen Hlow.
  assert (Hurl : is_likely_url (result st) = true).
  { rewrite is_likely_url_window. apply existsb_exists.
    exists indicator. split; [exact Hin|].
    rewrite Hres, last_n_app by (now rewrite length_map).
    rewrite join_app, join_singles.
    match goal with
    | |- contains _ (lower (?a ++ s)) = true =>
        destruct (Hlow a) as [a' E];
        replace (lower (a ++ s)) with (a' ++ indicator ++ [])
          by (rewrite app_nil_r; symmetry; exact E)
    end.
    apply contains_app. }
  destruct (code_mode_flags _ Hcode) as (Hs & Hc & Hl & Hm & Ht).
  assert (Hlt : i st < List.length x).
  { apply nth_error_Some. congruence. }
  rewrite (body_step _ _ Hlt). f_equal.
  rewrite (skipn_nth_error _ _ _ H0).
  replace (S (i st)) with (i st + 1) by lia.
  rewrite (skipn_nth_error _ _ _ H1).
  unfold advance, step, next_is. rewrite Hs, Hc, Hl, Hm, Ht, Hurl.
  reflexivity.
Qed.

(** ** Comments between plain code *)

Lemma skipn_exact (a b : str) (n : nat) :
  n = List.length a -> skipn n (a ++ b) = b.
Proof.
  intros ->. now rewrite skipn_app, skipn_all, Nat.sub_diag.
Qed.

(** Plain code is appended character by character. *)
Lemma plain_code_copied (x : str) :
  forall (p : str) (st : Loop) (tail : str),
    code_mode (self st) = true ->
    skipn (i st) x = p ++ tail ->
    plain_code p = true ->
    reaches isspace lower x st
      {| self := self st;
         result := result st ++ map (fun c => [c]) p;
         i := i st + List.length p |}.
Proof.
  induction p as [|c p IH]; intros st tail Hcode Hx Hp.
  - simpl. rewrite app_nil_r. apply reaches_self.
  - cbn [app] in Hx. cbn [plain_code forallb] in Hp.
    apply andb_prop in Hp. destruct Hp as [Hc0 Hp].
    apply negb_true_iff in Hc0.
    apply orb_false_elim in Hc0. destruct Hc0 as [Hc0 Hsq].
    apply orb_false_elim in Hc0. destruct Hc0 as [Hsl Hdq].
    destruct (code_mode_flags _ Hcode) as (Hs & Hc & Hl & Hm & Ht).
    pose proof (skipn_lt _ _ _ _ Hx) as Hlt.
    eapply reaches_step; [exact Hlt | now apply body_step |].
    unfold advance, step. rewrite Hx, Hs, Hc, Hl, Hm, Ht, Hsl, Hdq, Hsq.
    cbn [orb andb].
    match goal with
    | |- reaches _ _ _ ?a _ => set (st1 := a)
    end.
    assert (E1 : skipn (i st1) x = p ++ tail).
    { unfold st1. cbn [i]. rewrite skipn_plus, Hx. reflexivity. }
    pose proof (IH st1 tail Hcode E1 Hp) as H.
    unfold st1 in H. cbn [self result i] in H.
    cbn [map List.length]. rewrite <- app_assoc in H. cbn [app] in H.
    replace (i st + S (List.length p)) with (i st + 1 + List.length p) by lia.
    exact H.
Qed.

(** X12: a line comment between plain code.  For plain code [p] and [q]
    (no slash, no quote) and a comment text [b] without newline, when the
    URL look-back finds no scheme at the end of [p], a fresh scanner turns
    [p], two slashes, [b], a newline and [q] into [p], the newline and
    [q], and ends in plain code. *)
Theorem line_comment_between_code (p b q : str) :
  plain_code p = true ->
  is_likely_url (map (fun c => [c]) p) = false ->
  no_newline b = true ->
  plain_code q = true ->
  remove_comments init (p ++ slash :: slash :: b ++ newline :: q)
  = Ok (init, p ++ newline :: q).
Proof.
  intros Hp Hurl Hb Hq.
  set (x := p ++ slash :: slash :: b ++ newline :: q).
  pose proof (plain_code_copied x p (start init)
                (slash :: slash :: b ++ newline :: q)
                eq_refl eq_refl Hp) as H1.
  cbn [start self result i app Nat.add] in H1.
  set (st1 := {| self := init; result := map (fun c => [c]) p;
                 i := List.length p |}) in H1.
  assert (E1 : skipn (i st1) x = slash :: slash :: b ++ newline :: q).
  { unfold st1, x. cbn [i]. now apply skipn_exact. }
  pose proof (line_comment_from_code x st1 b q eq_refl Hurl E1 Hb) as H2.
  unfold st1 in H2. cbn [self result i] in H2.
  match type of H2 with
  | reaches _ _ _ _ ?a => set (st2 := a) in H2
  end.
  assert (E2 : skipn (i st2) x = q ++ []).
  { unfold st2, x. cbn [i]. rewrite app_nil_r.
    change (p ++ slash :: slash :: b ++ newline :: q)
      with (p ++ [slash; slash] ++ b ++ [newline] ++ q).
    rewrite !app_assoc. apply skipn_exact.
    rewrite !length_app. simpl. lia. }
  pose proof (plain_code_copied x q st2 [] eq_refl E2 Hq) as H3.
  unfold st2 in H3. cbn [self result i] in H3.
  unfold remove_comments. fold (start init).
  rewrite (while_reaches x _ _
             (reaches_trans x _ _ _ H1 (reaches_trans x _ _ _ H2 H3)))
    by (simpl; lia).
  rewrite while_done
    by (unfold x; cbn [i]; rewrite !length_app; simpl;
        rewrite !length_app; simpl; lia).
  cbn [bind self result].
  rewrite !join_app, !join_singles. cbn [join List.concat app].
  now rewrite <- app_assoc.
Qed.

(** X13: a block comment between plain code.  For plain code [p] and [q]
    and a comment text [b] in which no star is followed by a slash, a
    fresh scanner turns [p], the opening slash and star, [b], the closing
    star and slash and [q] into [p], the newlines of [b] and [q], and ends
    in plain code. *)
Theorem block_comment_between_code (p b q : str) :
  plain_code p = true ->
  contains [star; slash] b = false ->
  plain_code q = true ->
  remove_comments init (p ++ slash :: star :: b ++ star :: slash :: q)
  = Ok (init, p ++ filter (fun c => char_eqb c newline) b ++ q).
Proof.
  intros Hp Hb Hq.
  set (x := p ++ slash :: star :: b ++ star :: slash :: q).
  pose proof (plain_code_copied x p (start init)
                (slash :: star :: b ++ star :: slash :: q)
                eq_refl eq_refl Hp) as H1.
  cbn [start self result i app Nat.add] in H1.
  set (st1 := {| self := init; result := map (fun c => [c]) p;
                 i := List.length p |}) in H1.
  assert (E1 : skipn (i st1) x = slash :: star :: b ++ star :: slash :: q).
  { unfold st1, x. cbn [i]. now apply skipn_exact. }
  pose proof (block_comment_from_code x st1 b q eq_refl E1 Hb) as H2.
  unfold st1 in H2. cbn [self result i] in H2.
  match type of H2 with
  | reaches _ _ _ _ ?a => set (st2 := a) in H2
  end.
  assert (E2 : skipn (i st2) x = q ++ []).
  { unfold st2, x. cbn [i]. rewrite app_nil_r.
    change (p ++ slash :: star :: b ++ star :: slash :: q)
      with (p ++ [slash; star] ++ b ++ [star; slash] ++ q).
    rewrite !app_assoc. apply skipn_exact.
    rewrite !length_app. simpl. lia. }
  pose proof (plain_code_copied x q st2 [] eq_refl E2 Hq) as H3.
  unfold st2 in H3. cbn [self result i] in H3.
  unfold remove_comments. fold (start init).
  rewrite (while_reaches x _ _
             (reaches_trans x _ _ _ H1 (reaches_trans x _ _ _ H2 H3)))
    by (simpl; lia).
  rewrite while_done
    by (unfold x; cbn [i]; rewrite !length_app; simpl;
        rewrite !length_app; simpl; lia).
  cbn [bind self result].
  rewrite !join_app, !join_singles. now rewrite <- app_assoc.
Qed.

End ScannerFacts.

(** ** Runs on concrete inputs *)

Ltac run_to :=
  repeat first
    [ apply reaches_refl
    | eapply reaches_step; [simpl; lia | vm_compute; reflexivity | ] ].

(** A character literal holding two slashes, met in plain code. *)
Lemma literals_copied_witness :
  let x := lit "c = '//'; d" in
  let st := {| self := init; result := map (fun c => [c]) (lit "c = ");
               i := 4 |} in
  reaches isspace_latin1 lower_latin1 x st
    {| self := init;
       result := map (fun c => [c]) (lit "c = '//'");
       i := 8 |}.
Proof.
  intros x st.
  apply (proj1 (proj2 (literals_copied isspace_latin1 lower_latin1))
           x st (lit "//") (lit "; d")); reflexivity.
Defined.

(** A string literal of the language that the scanner does not take for
    one.  The first line ends in a comment that the URL look-back keeps
    ([http:] is among the last ten entries); the double quote inside that
    comment opens a string for the scanner, which runs over the newline to
    the opening quote of the literal on the second line.  The [a] of that
    literal is then plain code for the scanner, and the two slashes after
    it start a line comment: the rest of the literal is dropped.  With the
    look-back switched off (a [lower] that returns the empty string) the
    comment of the first line is dropped and the literal is kept. *)
Lemma string_after_kept_comment :
  let line1 := lit "String u = " ++ [dquote] ++ lit "http:" ++ [dquote]
               ++ lit "; // the " ++ [dquote] ++ lit "scheme" in
  let line2 := lit "String p = " ++ [dquote] ++ lit "a//b" ++ [dquote]
               ++ lit ";" in
  let x := line1 ++ [newline] ++ line2 in
  run x
  = Ok (set_in_single_line_comment init true,
        line1 ++ [newline] ++ lit "String p = " ++ [dquote] ++ lit "a") /\
  remove_comments isspace_latin1 (fun _ => []) init x
  = Ok (init,
        lit "String u = " ++ [dquote] ++ lit "http:" ++ [dquote] ++ lit "; "
          ++ [newline] ++ line2).
Proof.
  split; vm_compute; reflexivity.
Qed.

(** An escaped double quote in a string. *)
Lemma escape_copies_pair_witness :
  let x := [dquote; backslash; dquote; dquote] in
  let st := {| self := set_in_string init true (Some dquote);
               result := [[dquote]]; i := 1 |} in
  body isspace_latin1 lower_latin1 x st
  = Ok {| self := set_in_string init true (Some dquote);
          result := [[dquote]; [backslash]; [dquote]]; i := 3 |}.
Proof.
  intros x st.
  apply (proj1 (escape_copies_pair isspace_latin1 lower_latin1)
           x st dquote); reflexivity.
Defined.

(** An unterminated string that ends in a backslash. *)
Lemma trailing_backslash_copied_witness :
  let x := [dquote] ++ lit "a" ++ [backslash] in
  let st := {| self := set_in_string init true (Some dquote);
               result := [[dquote]; lit "a"]; i := 2 |} in
  body isspace_latin1 lower_latin1 x st
  = Ok {| self := self st; result := result st ++ [[backslash]];
          i := i st + 1 |} /\
  run x = Ok (self st, join (result st) ++ [backslash]).
Proof.
  intros x st.
  apply (trailing_backslash_copied isspace_latin1 lower_latin1 init x st);
    [run_to | reflexivity | reflexivity | reflexivity].
Defined.

(** A line without comments, with two slashes in a string. *)
Lemma remove_comments_idempotent_witness :
  let x := lit "String url = " ++ [dquote] ++ lit "Visit http://example.com"
             ++ [dquote] ++ lit ";" in
  comment_free isspace_latin1 lower_latin1 x = true /\
  exists s1 y s2, run x = Ok (s1, y) /\ run y = Ok (s2, y).
Proof.
  intros x. split; [vm_compute; reflexivity|].
  apply (remove_comments_idempotent isspace_latin1 lower_latin1 x).
  vm_compute; reflexivity.
Defined.

(** Two slashes after an [a]: a line comment starts. *)
Lemma line_comment_unless_url_witness :
  let x := lit "a//b" in
  let st := {| self := init; result := [lit "a"]; i := 1 |} in
  body isspace_latin1 lower_latin1 x st
  = Ok {| self := set_in_single_line_comment init true;
          result := [lit "a"]; i := 3 |}.
Proof.
  intros x st.
  apply (proj1 (line_comment_unless_url isspace_latin1 lower_latin1 x st
                  eq_refl eq_refl eq_refl)).
Defined.

(** Three quotes and a newline: a text block starts. *)
Lemma text_block_opens_before_space_witness :
  let x := [dquote; dquote; dquote; newline] in
  body isspace_latin1 lower_latin1 x (start init)
  = Ok {| self := set_in_text_block init true;
          result := [[dquote; dquote; dquote]]; i := 3 |}.
Proof.
  intros x.
  apply (text_block_opens_before_space isspace_latin1 lower_latin1 x
           (start init) [newline] eq_refl eq_refl).
Defined.

(** [remove_comments] does not reset the flags: called on the instance
    that has scanned an unterminated block comment, it starts inside that
    comment and drops the [a] that a fresh instance returns. *)
Lemma remove_comments_keeps_flags :
  run (lit "/*") = Ok (set_in_multi_line_comment init true, []) /\
  remove_comments isspace_latin1 lower_latin1
    (set_in_multi_line_comment init true) (lit "a")
  = Ok (set_in_multi_line_comment init true, []) /\
  run (lit "a") = Ok (init, lit "a") /\
  [] <> lit "a".
Proof.
  repeat split; try (vm_compute; reflexivity). discriminate.
Qed.

(** The look-back is over entries of [result], not characters.  After
    [http:], a text block holding one space and a semicolon, the last ten
    characters of the output hold no URL scheme, yet the last ten entries
    do ([http:] is five of them, the block's quotes three): the two slashes
    that follow start no comment. *)
Lemma window_counts_entries :
  let x := lit "http:" ++ [dquote; dquote; dquote] ++ lit " "
             ++ [dquote; dquote; dquote] ++ lit ";//x" in
  let st := {| self := init;
               result := map (fun c => [c]) (lit "http:")
                         ++ [[dquote; dquote; dquote]; lit " "; [dquote];
                             [dquote; dquote]; lit ";"];
               i := 13 |} in
  reaches isspace_latin1 lower_latin1 x (start init) st /\
  code_mode (self st) = true /\
  nth_error x (i st) = Some slash /\
  nth_error x (i st + 1) = Some slash /\
  existsb (fun indicator =>
             contains indicator (lower_latin1 (last_n 10 (join (result st)))))
          url_indicators = false /\
  body isspace_latin1 lower_latin1 x st
  = Ok {| self := init; result := result st ++ [[slash]]; i := 14 |} /\
  run x = Ok (init, x).
Proof.
  intros x st. split; [run_to|].
  repeat split; vm_compute; reflexivity.
Qed.

(** Unterminated input is scanned to its end in the mode it is in. *)
Example unterminated_block_comment :
  run (lit "a /* b") = Ok (set_in_multi_line_comment init true, lit "a ").
Proof. reflexivity. Qed.

Example unterminated_string :
  run ([dquote] ++ lit "a // b")
  = Ok (set_in_string init true (Some dquote), [dquote] ++ lit "a // b").
Proof. reflexivity. Qed.

Example unterminated_text_block :
  run ([dquote; dquote; dquote; newline] ++ lit "/* a */")
  = Ok (set_in_text_block init true,
        [dquote; dquote; dquote; newline] ++ lit "/* a */").
Proof. reflexivity. Qed.

(** Without the restriction to input free of comments a second scan can
    remove more: the URL look-back keeps the first slash after [http:],
    and the star left behind by the first scan then follows it. *)
Example second_scan_removes_more :
  run (lit "http://*c*/*x*/") = Ok (init, lit "http:/*x*/") /\
  run (lit "http:/*x*/") = Ok (init, lit "http:").
Proof. split; reflexivity. Qed.

(** Three quotes that end the input open no text block: the first quote
    opens a string literal, and the scan ends in a string. *)
Lemma triple_quote_at_end :
  let x := [dquote; dquote; dquote] in
  body isspace_latin1 lower_latin1 x (start init)
  = Ok {| self := set_in_string init true (Some dquote);
          result := [[dquote]]; i := 1 |} /\
  run x = Ok (set_in_string init true (Some dquote), x).
Proof.
  split; vm_compute; reflexivity.
Qed.

(** A carriage return is no newline for the scanner: in a line comment it
    is dropped with the rest of the comment. *)
Example carriage_return_dropped :
  run (lit "a//b" ++ [13%N; newline] ++ lit "c")
  = Ok (init, lit "a" ++ [newline] ++ lit "c").
Proof. reflexivity. Qed.


(** ** Runs for the further properties *)

(** A fresh instance on a line with a string and a line comment. *)
Lemma remove_comments_well_formed_witness :
  let x := [dquote] ++ lit "a" ++ [dquote] ++ lit " // b" in
  (forall st, reaches isspace_latin1 lower_latin1 x (start init) st ->
              well_formed (self st) = true) /\
  exists s' out, run x = Ok (s', out) /\ well_formed s' = true.
Proof.
  intros x.
  apply (remove_comments_well_formed isspace_latin1 lower_latin1 init x).
  reflexivity.
Defined.

(** A division is no comment. *)
Lemma opener_free_unchanged_witness :
  let x := lit "int a = b / c;" in
  exists s', run x = Ok (s', x).
Proof.
  intros x.
  apply (opener_free_unchanged isspace_latin1 lower_latin1 x).
  reflexivity.
Defined.

(** A line comment between two lines of code. *)
Lemma line_comment_removed_witness :
  let x := lit "a//b" ++ [newline] ++ lit "c" in
  let st := {| self := init; result := [lit "a"]; i := 1 |} in
  reaches isspace_latin1 lower_latin1 x st
    {| self := init; result := [lit "a"; [newline]]; i := 5 |}.
Proof.
  intros x st.
  apply (line_comment_removed isspace_latin1 lower_latin1 x st
           (lit "b") (lit "c")); reflexivity.
Defined.

(** A line comment that ends the input. *)
Lemma line_comment_at_end_witness :
  let x := lit "a//b" in
  run x = Ok (set_in_single_line_comment init true, lit "a").
Proof.
  intros x.
  apply (line_comment_at_end isspace_latin1 lower_latin1 init x
           {| self := init; result := [lit "a"]; i := 1 |} (lit "b"));
    [run_to | reflexivity | reflexivity | reflexivity | reflexivity].
Defined.

(** A block comment over two lines, with a line comment opener in it. *)
Lemma block_comment_removed_witness :
  let x := lit "a/*b//" ++ [newline] ++ lit "c*/d" in
  let st := {| self := init; result := [lit "a"]; i := 1 |} in
  reaches isspace_latin1 lower_latin1 x st
    {| self := init; result := [lit "a"; [newline]]; i := 10 |}.
Proof.
  intros x st.
  apply (block_comment_removed isspace_latin1 lower_latin1 x st
           (lit "b//" ++ [newline] ++ lit "c") (lit "d")); reflexivity.
Defined.

(** A block comment that is never closed. *)
Lemma block_comment_at_end_witness :
  let x := lit "a/*b" ++ [newline] ++ lit "c*" in
  run x = Ok (set_in_multi_line_comment init true, lit "a" ++ [newline]).
Proof.
  intros x.
  apply (block_comment_at_end isspace_latin1 lower_latin1 init x
           {| self := init; result := [lit "a"]; i := 1 |}
           (lit "b" ++ [newline] ++ lit "c*"));
    [run_to | reflexivity | reflexivity | reflexivity].
Defined.

(** A text block that holds a block comment and a quote. *)
Lemma text_block_kept_witness :
  let b := lit "/* a */ " ++ [dquote] ++ lit "b" in
  let x := [dquote; dquote; dquote; newline] ++ b
           ++ [dquote; dquote; dquote] ++ lit ";" in
  reaches isspace_latin1 lower_latin1 x (start init)
    {| self := init;
       result := [[dquote; dquote; dquote]]
                 ++ map (fun c => [c]) (newline :: b)
                 ++ [[dquote]; [dquote; dquote]];
       i := 17 |}.
Proof.
  intros b x.
  apply (text_block_kept isspace_latin1 lower_latin1 x (start init)
           newline b (lit ";")); reflexivity.
Defined.

(** A URL in upper case, in plain code. *)
Lemma scheme_keeps_slashes_witness :
  let x := lit "HTTP://a" in
  let st := {| self := init; result := map (fun c => [c]) (lit "HTTP:");
               i := 5 |} in
  body isspace_latin1 lower_latin1 x st
  = Ok {| self := init; result := result st ++ [[slash]]; i := 6 |}.
Proof.
  intros x st.
  apply (scheme_keeps_slashes isspace_latin1 lower_latin1 x st []
           (lit "HTTP:") (lit "http:"));
    [reflexivity | reflexivity | reflexivity | left; reflexivity
    | reflexivity | simpl; lia |].
  intros a. exists (lower_latin1 a).
  unfold lower_latin1. rewrite map_app. reflexivity.
Defined.

(** A declaration, a line comment, a second declaration. *)
Lemma line_comment_between_code_witness :
  run (lit "int x = 1; " ++ slash :: slash :: lit " comment"
         ++ newline :: lit "int y;")
  = Ok (init, lit "int x = 1; " ++ newline :: lit "int y;").
Proof.
  apply (line_comment_between_code isspace_latin1 lower_latin1
           (lit "int x = 1; ") (lit " comment") (lit "int y;"));
    reflexivity.
Defined.

(** Two calls with a block comment of two lines between them. *)
Lemma block_comment_between_code_witness :
  run (lit "a();" ++ slash :: star :: (lit " b" ++ [newline] ++ lit "c ")
         ++ star :: slash :: lit "d();")
  = Ok (init, lit "a();" ++ [newline] ++ lit "d();").
Proof.
  apply (block_comment_between_code isspace_latin1 lower_latin1
           (lit "a();") (lit " b" ++ [newline] ++ lit "c ") (lit "d();"));
    reflexivity.
Defined.
